(** * Large-scale Gaussian processes: the notebook [sem4-GP/3_LargeScaleGP.ipynb]

    The notebook declares two estimators with an sklearn-like interface:
    [SparseGPModel], a wrapper around [GPy.models.SparseGPRegression] that
    picks its inducing inputs among the rows of the training matrix, and
    [RFF], a random Fourier feature mapper.  [RFF] is an exercise: the
    right-hand sides of [self.w], [self.u] (in [fit]) and of [Z] (in
    [transform]) are left blank in the source.

    The embedding is shallow.  Python objects live in a heap indexed by
    locations, methods are computations in a state-and-exception monad over
    the heap and numpy's global random state, and the libraries the notebook
    calls (numpy.random, scipy.stats, GPy, sklearn.metrics) are interfaces
    whose implementations are not part of the notebook.  Where the blanks
    of [RFF] are filled in from the specification, every instance draws
    from a generator of its own and the global random state is left
    alone. *)

From stdpp Require Import base list gmap strings.
From Stdlib Require Import ZArith Lia Factorial.
From Stdlib Require Reals.

Local Open Scope Z_scope.
Local Open Scope nat_scope.

(** ** Python exceptions and results *)

(** An exception is identified by the name of its class and carries a
    message. *)
Inductive exn := Exception (cls msg : string).

Definition exc_class (e : exn) : string :=
  match e with Exception cls _ => cls end.

Definition NotFittedError := Exception "NotFittedError".
Definition AttributeError := Exception "AttributeError".
Definition TypeError := Exception "TypeError".
Definition ValueError := Exception "ValueError".
Definition IndexError := Exception "IndexError".

Inductive result (A : Type) :=
| Ok (a : A)
| Raise (e : exn).
Arguments Ok {A} a.
Arguments Raise {A} e.

(** ** Floating-point scalars

    The notebook computes with numpy's float64.  The operations are kept
    abstract: no algebraic law is assumed of them, so every statement below
    holds for IEEE arithmetic as well as for the reals. *)
Class Scalar := {
  F : Type;
  F_of_Z : Z → F;
  Fadd : F → F → F;
  Fmul : F → F → F;
  Fdiv : F → F → F;
  Fsqrt : F → F;
  Fcos : F → F;
  Fpi : F }.

(** ** numpy arrays *)
Module Numpy.
Section Arrays.
Context `{Scalar}.

(** A two-dimensional array: its rows, and the length every row has
    ([shape[1]], which numpy knows even when there is no row). *)
Record ndarray := { ncols : nat; rows : list (list F) }.

Definition nrows (A : ndarray) : nat := length (rows A).

Definition shape (A : ndarray) : nat * nat := (nrows A, ncols A).

(** The arrays numpy can build are rectangular. *)
Definition wf (A : ndarray) : Prop :=
  Forall (λ r, length r = ncols A) (rows A).

(** [A[i, j]] *)
Definition item (A : ndarray) (i j : nat) : option F :=
  rows A !! i ≫= (.!! j).

Definition zero : F := F_of_Z 0.

Definition column (j : nat) (A : ndarray) : list F :=
  map (λ r, nth j r zero) (rows A).

(** [A.T] *)
Definition T (A : ndarray) : ndarray :=
  {| ncols := nrows A; rows := map (λ j, column j A) (seq 0 (ncols A)) |}.

(** Inner product of two vectors, summed from the left. *)
Definition inner (a b : list F) : F :=
  fold_left Fadd (zip_with Fmul a b) zero.

Definition matmul (A B : ndarray) : ndarray :=
  {| ncols := ncols B;
     rows := map (λ r, map (λ k, inner r (column k B)) (seq 0 (ncols B)))
                 (rows A) |}.

(** [A.dot(B)] for two-dimensional arrays: the matrix product, a
    [ValueError] when the inner dimensions differ. *)
Definition dot (A B : ndarray) : result ndarray :=
  if decide (ncols A = nrows B) then Ok (matmul A B)
  else Raise (ValueError "shapes not aligned").

(** [l[:m]] for a Python integer [m]: the first [m] elements, all of [l]
    when [m] exceeds its length; a negative [m] counts from the end. *)
Definition slice_to {A} (m : Z) (l : list A) : list A :=
  if (0 <=? m)%Z then take (Z.to_nat m) l
  else take (length l - Z.to_nat (- m)) l.

(** [X[idx]] for a list of row indices (numpy's integer-array indexing):
    the rows of [X] at these indices, in the order of [idx]. *)
Definition take_rows (X : ndarray) (idx : list nat) : result ndarray :=
  match mapM (λ i, rows X !! i) idx with
  | Some rs => Ok {| ncols := ncols X; rows := rs |}
  | None => Raise (IndexError "index is out of bounds for axis 0")
  end.

End Arrays.
End Numpy.
Export Numpy.

(** ** Python values and calls *)
Section Values.
Context `{Scalar}.

Inductive pyval :=
| PyNone
| PyInt (z : Z)
| PyFloat (x : F)
| PyStr (s : string)
| PyArr (a : ndarray).

(** [v == s] for a string literal [s]. *)
Definition is_str (v : pyval) (s : string) : bool :=
  match v with PyStr s' => bool_decide (s' = s) | _ => false end.

Definition as_int (v : pyval) : result Z :=
  match v with
  | PyInt z => Ok z
  | _ => Raise (TypeError "an integer is required")
  end.

Definition as_float (v : pyval) : result F :=
  match v with
  | PyInt z => Ok (F_of_Z z)
  | PyFloat x => Ok x
  | _ => Raise (TypeError "a number is required")
  end.

(** A parameter of a [def]: its name and its default value, if any. *)
Definition param : Type := string * option pyval.

(** Python's binding of the arguments of a call to the parameters of the
    function called: positional arguments first, then keywords, then
    defaults.  A [TypeError] is raised when there are too many positional
    arguments, when a keyword names no parameter or one that is bound
    already, and when a parameter without default stays unbound. *)
Fixpoint bind_positional (ps : list param) (args : list pyval)
    (bound : gmap string pyval) : result (list param * gmap string pyval) :=
  match args, ps with
  | [], _ => Ok (ps, bound)
  | a :: args', (n, _) :: ps' => bind_positional ps' args' (<[n:=a]> bound)
  | _ :: _, [] => Raise (TypeError "too many positional arguments")
  end.

Fixpoint bind_keywords (ps : list param) (kwargs : list (string * pyval))
    (bound : gmap string pyval) : result (gmap string pyval) :=
  match kwargs with
  | [] => Ok bound
  | (k, v) :: kwargs' =>
      if decide (is_Some (bound !! k)) then
        Raise (TypeError "got multiple values for argument")
      else if decide (k ∈ ps.*1) then bind_keywords ps kwargs' (<[k:=v]> bound)
      else Raise (TypeError "got an unexpected keyword argument")
  end.

Fixpoint bind_defaults (ps : list param) (bound : gmap string pyval)
    : result (gmap string pyval) :=
  match ps with
  | [] => Ok bound
  | (n, d) :: ps' =>
      match bound !! n, d with
      | Some _, _ => bind_defaults ps' bound
      | None, Some v => bind_defaults ps' (<[n:=v]> bound)
      | None, None => Raise (TypeError "missing a required argument")
      end
  end.

Definition bind_args (ps : list param) (args : list pyval)
    (kwargs : list (string * pyval)) : result (gmap string pyval) :=
  match bind_positional ps args ∅ with
  | Raise e => Raise e
  | Ok (_, bound) =>
      match bind_keywords ps kwargs bound with
      | Raise e => Raise e
      | Ok bound' => bind_defaults ps bound'
      end
  end.

(** The value bound to parameter [n]. *)
Definition arg (b : gmap string pyval) (n : string) : pyval :=
  default PyNone (b !! n).

End Values.

(** ** The libraries the notebook calls

    None of them belongs to the repository: each is an interface, and a
    statement below holds for every implementation of it. *)

(** numpy's random generators and the samplers that draw from one
    ([np.random.*] and [scipy.stats.*.rvs] on the global generator, the
    methods of a [np.random.RandomState] on a generator of one's own).
    Every draw takes the state of the generator and returns the state it
    leaves behind. *)
Class NumpyRandom `{Scalar} := {
  RandomState : Type;
  (** the state of a generator seeded with [s]: what [np.random.seed(s)]
      installs, what [np.random.RandomState(s)] starts from *)
  seed : Z → RandomState;
  (** [np.random.permutation(n)]: a shuffled [range(n)] *)
  permutation : nat → RandomState → list nat * RandomState;
  permutation_Permutation n s : (permutation n s).1 ≡ₚ seq 0 n;
  (** [np.random.normal(loc, scale, size)] *)
  normal : F → F → Z * Z → RandomState → result ndarray * RandomState;
  (** [scipy.stats.cauchy.rvs(loc, scale, size)] *)
  cauchy_rvs : F → F → Z * Z → RandomState → result ndarray * RandomState;
  (** [np.random.uniform(low, high, size)] *)
  uniform : F → F → Z → RandomState → result (list F) * RandomState }.

(** GPy's sparse regression model, and sklearn's [r2_score].

    A model is taken as a value and a call as a function of its arguments.
    GPy links the kernel object it is given into the model and updates its
    hyperparameters in place when the model is optimized; that sharing is
    not modelled, so nothing below speaks of the state of the kernel object:
    the statements are about the attributes of the estimator and about what
    is handed to GPy and taken from it. *)
Class GPyLib `{Scalar} := {
  (** a kernel object, [GPy.kern.*] *)
  Kern : Type;
  (** an instance of [GPy.models.SparseGPRegression] *)
  GPModel : Type;
  (** [GPy.models.SparseGPRegression(X, y, kernel=k, Z=Z)] *)
  SparseGPRegression : ndarray → ndarray → Kern → ndarray → result GPModel;
  (** [m.inducing_inputs.fix()] *)
  inducing_inputs_fix : GPModel → GPModel;
  (** [m.optimize(max_iters=n)]: the model as the call leaves it, and the
      exception it raised, if any *)
  optimize : Z → GPModel → option exn * GPModel;
  (** [m.predict(X)]: the predictive mean and variance *)
  model_predict : GPModel → ndarray → result (ndarray * ndarray);
  (** [sklearn.metrics.r2_score(y, prediction)] *)
  r2_score : ndarray → ndarray → result F }.

(** ** Objects, the heap and the monad of Python computations *)
Section Heap.
Context `{Scalar} `{!NumpyRandom} `{!GPyLib}.

(** The attributes of an [RFF] instance.  [__init__] sets the first four;
    [w] and [u] do not exist until [fit] assigns them. *)
Record RFF_obj := {
  gamma : pyval;
  kernel : pyval;
  n_components : pyval;
  fitted : bool;
  w : option ndarray;
  u : option (list F) }.

(** The attributes of a [SparseGPModel] instance.  [model_] does not exist
    until [fit] assigns it. *)
Record SparseGPModel_obj := {
  kernel_ : Kern;
  num_inducing : Z;
  model_ : option GPModel }.

Inductive object :=
| ObjRFF (o : RFF_obj)
| ObjSGP (o : SparseGPModel_obj).

Definition loc := nat.

(** The state a notebook cell runs in: numpy's global random state and the
    objects alive. *)
Record World := { np_random : RandomState; heap : gmap loc object }.

(** A computation returns a value or raises; either way it leaves a world
    behind, and what it changed before raising stays changed. *)
Definition Py (A : Type) : Type := World → result A * World.

Definition ret {A} (a : A) : Py A := λ σ, (Ok a, σ).

Definition raise {A} (e : exn) : Py A := λ σ, (Raise e, σ).

Definition bind {A B} (c : Py A) (k : A → Py B) : Py B :=
  λ σ, match c σ with
       | (Ok a, σ') => k a σ'
       | (Raise e, σ') => (Raise e, σ')
       end.

Definition lift {A} (r : result A) : Py A := λ σ, (r, σ).

(** A draw from the global random state. *)
Definition draw {A} (f : RandomState → A * RandomState) : Py A :=
  λ σ, let '(a, s) := f (np_random σ) in
       (Ok a, {| np_random := s; heap := heap σ |}).

(** [np.random.seed(s)] *)
Definition np_random_seed (s : Z) : Py unit :=
  λ σ, (Ok (), {| np_random := seed s; heap := heap σ |}).

(** A new object, at a location not in use. *)
Definition alloc (o : object) : Py loc :=
  λ σ, let l := fresh (dom (heap σ)) in
       (Ok l, {| np_random := np_random σ; heap := <[l:=o]> (heap σ) |}).

Definition store (l : loc) (o : object) : Py unit :=
  λ σ, (Ok (), {| np_random := np_random σ; heap := <[l:=o]> (heap σ) |}).

End Heap.

Notation "'let*' x := c 'in' k" := (bind c (λ x, k))
  (at level 10, x pattern, c at level 100, k at level 200, only parsing).
Notation "c ;; k" := (bind c (λ _, k))
  (at level 100, k at level 200, right associativity, only parsing).

(** ** The class [RFF] (notebook cell 17) *)
Module RFF.

(** The blanks of the exercise.  Each is an expression that the
    source does not give; it may read whatever is in scope where it stands
    ([self], [X], [y], [d]) and run any computation. *)
Class Blanks `{Scalar} `{!NumpyRandom} `{!GPyLib} := {
  (** [self.w = ...] under [self.kernel == "rbf"] *)
  blank_w_rbf : loc → ndarray → pyval → nat → Py ndarray;
  (** [self.w = ...] under [self.kernel == "laplace"] *)
  blank_w_laplace : loc → ndarray → pyval → nat → Py ndarray;
  (** [self.u = ...] *)
  blank_u : loc → ndarray → pyval → nat → Py (list F);
  (** [Z = ...] in [transform] *)
  blank_Z : loc → ndarray → Py ndarray }.

Section Methods.
Context `{Scalar} `{!NumpyRandom} `{!GPyLib}.

(** Reading the attributes of [self]. *)
Definition get (self : loc) : Py RFF_obj :=
  λ σ, match heap σ !! self with
       | Some (ObjRFF o) => (Ok o, σ)
       | _ => (Raise (AttributeError "object has no attribute 'fitted'"), σ)
       end.

(** The attributes after an assignment [self.a = v]. *)
Definition with_w (o : RFF_obj) (v : ndarray) : RFF_obj :=
  {| gamma := gamma o; kernel := kernel o; n_components := n_components o;
     fitted := fitted o; w := Some v; u := u o |}.

Definition with_u (o : RFF_obj) (v : list F) : RFF_obj :=
  {| gamma := gamma o; kernel := kernel o; n_components := n_components o;
     fitted := fitted o; w := w o; u := Some v |}.

Definition with_fitted (o : RFF_obj) (v : bool) : RFF_obj :=
  {| gamma := gamma o; kernel := kernel o; n_components := n_components o;
     fitted := v; w := w o; u := u o |}.

(** Attribute assignments [self.a = v]. *)
Definition set_w (self : loc) (v : ndarray) : Py unit :=
  let* o := get self in store self (ObjRFF (with_w o v)).

Definition set_u (self : loc) (v : list F) : Py unit :=
  let* o := get self in store self (ObjRFF (with_u o v)).

Definition set_fitted (self : loc) (v : bool) : Py unit :=
  let* o := get self in store self (ObjRFF (with_fitted o v)).

(** [def __init__(self, gamma=1, n_components=50, kernel="rbf")] *)
Definition params : list param :=
  [("gamma", Some (PyInt 1)); ("n_components", Some (PyInt 50));
   ("kernel", Some (PyStr "rbf"))].

(** The call [RFF(...)]: the arguments are bound to the
    parameters of [__init__], whose body stores them and clears [fitted];
    the new instance is returned. *)
Definition __init__ (args : list pyval) (kwargs : list (string * pyval))
    : Py loc :=
  let* b := lift (bind_args params args kwargs) in
  alloc (ObjRFF {| gamma := arg b "gamma"; kernel := arg b "kernel";
                   n_components := arg b "n_components"; fitted := false;
                   w := None; u := None |}).

Context `{!Blanks}.

(** [fit(self, X, y=None)] *)
Definition fit (self : loc) (X : ndarray) (y : pyval) : Py loc :=
  let d := ncols X in
  let* o := get self in
  (if is_str (kernel o) "rbf" then
     let* v := blank_w_rbf self X y d in set_w self v
   else if is_str (kernel o) "laplace" then
     let* v := blank_w_laplace self X y d in set_w self v
   else ret ());;
  let* v := blank_u self X y d in
  set_u self v;;
  set_fitted self true;;
  ret self.

(** [transform(self, X)] *)
Definition transform (self : loc) (X : ndarray) : Py ndarray :=
  let* o := get self in
  if negb (fitted o) then
    raise (NotFittedError
      "RBF_MonteCarlo must be fitted beform computing the feature map Z")
  else
    let* Z := blank_Z self X in
    ret Z.

(** [compute_kernel(self, X)] *)
Definition compute_kernel (self : loc) (X : ndarray) : Py ndarray :=
  let* o := get self in
  if negb (fitted o) then
    raise (NotFittedError
      "RBF_MonteCarlo must be fitted beform computing the kernel matrix")
  else
    let* Z := transform self X in
    let* K := lift (dot Z (T Z)) in
    ret K.

End Methods.
End RFF.

(** ** The class [SparseGPModel] (notebook cell 5) *)
Module SparseGPModel.
Section Methods.
Context `{Scalar} `{!NumpyRandom} `{!GPyLib}.

Definition get (self : loc) : Py SparseGPModel_obj :=
  λ σ, match heap σ !! self with
       | Some (ObjSGP o) => (Ok o, σ)
       | _ => (Raise (AttributeError "object has no attribute 'num_inducing'"), σ)
       end.

(** Reading [self.model_]: the attribute exists once [fit] has assigned
    it; before, Python raises an [AttributeError]. *)
Definition get_model_ (self : loc) : Py GPModel :=
  let* o := get self in
  match model_ o with
  | Some m => ret m
  | None =>
      raise (AttributeError
        "'SparseGPModel' object has no attribute 'model_'")
  end.

(** [self.model_ = m], and the in-place updates of the object it names. *)
Definition set_model_ (self : loc) (m : GPModel) : Py unit :=
  let* o := get self in
  store self (ObjSGP {| kernel_ := kernel_ o; num_inducing := num_inducing o;
                        model_ := Some m |}).

(** [def __init__(self, kernel, num_inducing=100)] *)
Definition __init__ (kernel : Kern) (num_inducing : option Z) : Py loc :=
  alloc (ObjSGP {| kernel_ := kernel;
                   num_inducing := default 100%Z num_inducing;
                   model_ := None |}).

(** [fit(self, X, y)] *)
Definition fit (self : loc) (X y : ndarray) : Py unit :=
  let* idx := draw (permutation (nrows X)) in
  let* o := get self in
  let* Z := lift (take_rows X (slice_to (num_inducing o) idx)) in
  let* m := lift (SparseGPRegression X y (kernel_ o) Z) in
  set_model_ self m;;
  let* m := get_model_ self in
  set_model_ self (inducing_inputs_fix m);;
  let* m := get_model_ self in
  let '(e, m') := optimize 100 m in
  set_model_ self m';;
  match e with
  | Some e => raise e
  | None => ret ()
  end.

(** [predict(self, X)] *)
Definition predict (self : loc) (X : ndarray) : Py ndarray :=
  let* m := get_model_ self in
  let* (prediction, _) := lift (model_predict m X) in
  ret prediction.

(** [score(self, X, y)] *)
Definition score (self : loc) (X y : ndarray) : Py F :=
  let* prediction := predict self X in
  lift (r2_score y prediction).

End Methods.
End SparseGPModel.

(** ** The blanks of [RFF], filled in from the specification *)
Module RFFSpec.

(** Modelled from the spec: the random seed of each instance (section 6
    lists a "random seed" among the options).  No argument of [RFF(...)]
    or of [fit] carries it in the source, so it is given with the
    instance. *)
Class Seeds := { seed_of : loc → Z }.

Section Blanks.
Context `{Scalar} `{!NumpyRandom} `{!GPyLib} `{!Seeds}.

Definition get_w (self : loc) : Py ndarray :=
  let* o := RFF.get self in
  match w o with
  | Some v => ret v
  | None => raise (AttributeError "'RFF' object has no attribute 'w'")
  end.

Definition get_u (self : loc) : Py (list F) :=
  let* o := RFF.get self in
  match u o with
  | Some v => ret v
  | None => raise (AttributeError "'RFF' object has no attribute 'u'")
  end.

(** Modelled from the spec: where the draws of [fit] come from, the
    right-hand sides that would say so being blank in the source.  Sections
    5, 6 and 9: the draws are seedable (a "random seed" is among the
    recognized options), "each fitted instance owns its own draws and does
    not share them with other instances", "never a shared global random
    state", and all operations are "deterministic given a fixed random
    seed".  So every instance draws from a generator of its own, started
    from its seed when [fit] is called - as an sklearn estimator does with
    an integer [random_state] - first the frequencies, then the phases.
    The source has no parameter and no attribute for a seed, so the seed
    of an instance is a parameter of the model. *)
Definition generator (self : loc) : RandomState := seed (seed_of self).

(** Modelled from the spec: the frequencies for the RBF kernel, drawn from
    a generator in the state [s].  Section 4.3: fit "draws M frequency
    vectors w_i i.i.d. from the kernel's spectral density - for RBF, p(w)
    is a zero-mean Gaussian with covariance 2 gamma I"; M is
    [n_components] and the vectors have the [d] columns of [X]. *)
Definition sample_rbf (o : RFF_obj) (d : nat) (s : RandomState)
    : result ndarray * RandomState :=
  match as_float (gamma o) with
  | Raise e => (Raise e, s)
  | Ok g =>
      match as_int (n_components o) with
      | Raise e => (Raise e, s)
      | Ok M => normal zero (Fsqrt (Fmul (F_of_Z 2) g)) (M, Z.of_nat d) s
      end
  end.

(** Modelled from the spec: the frequencies for the Laplace kernel.
    Section 4.3: "for Laplace, p(w) follows a Cauchy(0, gamma) distribution
    per dimension". *)
Definition sample_laplace (o : RFF_obj) (d : nat) (s : RandomState)
    : result ndarray * RandomState :=
  match as_float (gamma o) with
  | Raise e => (Raise e, s)
  | Ok g =>
      match as_int (n_components o) with
      | Raise e => (Raise e, s)
      | Ok M => cauchy_rvs zero g (M, Z.of_nat d) s
      end
  end.

(** Modelled from the spec: the state of the instance's generator once
    the frequencies are drawn, the phases being drawn after them (section
    4.3 lists the two draws in this order, as [fit] assigns [self.w] before
    [self.u]).  No draw is made when [kernel] is neither "rbf" nor
    "laplace". *)
Definition after_frequencies (o : RFF_obj) (d : nat) (s : RandomState)
    : RandomState :=
  if is_str (kernel o) "rbf" then (sample_rbf o d s).2
  else if is_str (kernel o) "laplace" then (sample_laplace o d s).2
  else s.

(** Modelled from the spec: the phases.  Section 4.3: "Draws M phases b_i
    i.i.d. Uniform(0, 2 pi)". *)
Definition sample_phases (o : RFF_obj) (s : RandomState)
    : result (list F) * RandomState :=
  match as_int (n_components o) with
  | Raise e => (Raise e, s)
  | Ok M => uniform zero (Fmul (F_of_Z 2) Fpi) M s
  end.

(** Modelled from the spec: the right-hand side of [self.w = ] under
    [self.kernel == "rbf"], blank in the source. *)
Definition w_rbf (self : loc) (X : ndarray) (y : pyval) (d : nat)
    : Py ndarray :=
  let* o := RFF.get self in
  lift (sample_rbf o d (generator self)).1.

(** Modelled from the spec: the right-hand side of [self.w = ] under
    [self.kernel == "laplace"], blank in the source. *)
Definition w_laplace (self : loc) (X : ndarray) (y : pyval) (d : nat)
    : Py ndarray :=
  let* o := RFF.get self in
  lift (sample_laplace o d (generator self)).1.

(** Modelled from the spec: the right-hand side of [self.u = ], blank in
    the source. *)
Definition phases (self : loc) (X : ndarray) (y : pyval) (d : nat)
    : Py (list F) :=
  let* o := RFF.get self in
  lift (sample_phases o (after_frequencies o d (generator self))).1.

(** The feature of the point [x] for the frequency [wj] and the phase [bj]:
    sqrt(2/M) cos(wj . x + bj). *)
Definition feature (M : Z) (x wj : list F) (bj : F) : F :=
  Fmul (Fsqrt (Fdiv (F_of_Z 2) (F_of_Z M))) (Fcos (Fadd (inner wj x) bj)).

Definition features (M : Z) (w : ndarray) (u : list F) (X : ndarray)
    : ndarray :=
  {| ncols := nrows w;
     rows := map (λ x, zip_with (feature M x) (rows w) u) (rows X) |}.

Definition DimensionMismatch := Exception "DimensionMismatch".

(** Modelled from the spec: the right-hand side of [Z = ] in [transform] is
    blank in the source.  Section 4.3: "Phi[i,j] = sqrt(2/M) cos(w_j . x_i +
    b_j)", with the stored [w] and [u] and M = [n_components]; section 7:
    DimensionMismatch when the "feature dimensionality [is] inconsistent
    between fit and transform/predict inputs". *)
Definition feature_map (self : loc) (X : ndarray) : Py ndarray :=
  let* o := RFF.get self in
  let* w := get_w self in
  let* u := get_u self in
  let* M := lift (as_int (n_components o)) in
  if decide (ncols X = ncols w) then ret (features M w u X)
  else raise (DimensionMismatch "X does not have the fitted dimensionality").

Definition blanks : RFF.Blanks := {|
  RFF.blank_w_rbf := w_rbf;
  RFF.blank_w_laplace := w_laplace;
  RFF.blank_u := phases;
  RFF.blank_Z := feature_map |}.

(** The methods of [RFF] with the blanks so filled. *)
Definition fit : loc → ndarray → pyval → Py loc := @RFF.fit _ _ _ blanks.

Definition transform : loc → ndarray → Py ndarray :=
  @RFF.transform _ _ _ blanks.

Definition compute_kernel : loc → ndarray → Py ndarray :=
  @RFF.compute_kernel _ _ _ blanks.

End Blanks.
End RFFSpec.

(** ** Concrete libraries, to run the definitions on examples

    The scalars are the real numbers.  A random generator is a counter:
    each draw returns values computed from the counter and advances it.
    The regression model records what it was built from. *)
Module Sample.

Definition R_scalar : Scalar := {|
  F := Reals.Rdefinitions.R;
  F_of_Z := Reals.Rdefinitions.IZR;
  Fadd := Reals.Rdefinitions.Rplus;
  Fmul := Reals.Rdefinitions.Rmult;
  Fdiv := Reals.Rdefinitions.Rdiv;
  Fsqrt := Reals.R_sqrt.sqrt;
  Fcos := Reals.Rtrigo_def.cos;
  Fpi := Reals.Rtrigo1.PI |}.

Section Libraries.
Context `{Scalar}.

Definition counter_permutation (n s : nat) : list nat * nat :=
  (if Nat.even s then seq 0 n else rev (seq 0 n), S s).

Lemma counter_permutation_Permutation n s :
  (counter_permutation n s).1 ≡ₚ seq 0 n.
Proof.
  unfold counter_permutation; simpl.
  destruct (Nat.even s); [reflexivity|].
  symmetry; apply Permutation_rev.
Qed.

(** An [m] x [d] array whose entries count up from [s]; numpy refuses a
    negative dimension. *)
Definition counter_array (size : Z * Z) (s : nat) : result ndarray * nat :=
  let '(m, d) := size in
  if ((m <? 0) || (d <? 0))%Z then
    (Raise (ValueError "negative dimensions are not allowed"), s)
  else
    (Ok {| ncols := Z.to_nat d;
           rows := map (λ i, map (λ j, F_of_Z (Z.of_nat (s + i * Z.to_nat d + j)))
                                 (seq 0 (Z.to_nat d)))
                       (seq 0 (Z.to_nat m)) |},
     S s).

Definition counter_vector (m : Z) (s : nat) : result (list F) * nat :=
  if (m <? 0)%Z then
    (Raise (ValueError "negative dimensions are not allowed"), s)
  else (Ok (map (λ i, F_of_Z (Z.of_nat (s + i))) (seq 0 (Z.to_nat m))), S s).

Definition counter_random : NumpyRandom := {|
  RandomState := nat;
  seed := Z.abs_nat;
  permutation := counter_permutation;
  permutation_Permutation := counter_permutation_Permutation;
  normal := λ _ _, counter_array;
  cauchy_rvs := λ _ _, counter_array;
  uniform := λ _ _, counter_vector |}.

(** What a recorded model was built from, and how it was treated since. *)
Record recorded := {
  train_X : ndarray;
  train_y : ndarray;
  inducing : ndarray;
  inducing_fixed : bool;
  max_iters : option Z }.

(** The recorded model predicts the mean 0 at every query point, with a
    variance equal to its number of inducing inputs. *)
Definition recorded_predict (m : recorded) (X : ndarray)
    : result (ndarray * ndarray) :=
  Ok ({| ncols := 1; rows := map (λ _, [zero]) (rows X) |},
      {| ncols := 1;
         rows := map (λ _, [F_of_Z (Z.of_nat (nrows (inducing m)))]) (rows X) |}).

Definition recording_gpy : GPyLib := {|
  Kern := unit;
  GPModel := recorded;
  SparseGPRegression := λ X y _ Z,
    Ok {| train_X := X; train_y := y; inducing := Z;
          inducing_fixed := false; max_iters := None |};
  inducing_inputs_fix := λ m,
    {| train_X := train_X m; train_y := train_y m; inducing := inducing m;
       inducing_fixed := true; max_iters := max_iters m |};
  optimize := λ n m,
    (None, {| train_X := train_X m; train_y := train_y m;
              inducing := inducing m; inducing_fixed := inducing_fixed m;
              max_iters := Some n |});
  model_predict := recorded_predict;
  r2_score := λ _ _, Ok zero |}.

End Libraries.

(** Seeds given to the instances in pairs: the instances at 0 and 1 have
    the seed 0, those at 2 and 3 the seed 1, and so on. *)
Definition paired_seeds : RFFSpec.Seeds :=
  {| RFFSpec.seed_of := λ l, Z.of_nat (l `div` 2) |}.

(** The world a fresh notebook starts in, after [np.random.seed(s)]. *)
Definition world0 (s : Z)
    : @World R_scalar counter_random recording_gpy :=
  {| np_random := @seed R_scalar counter_random s; heap := ∅ |}.

End Sample.

(** * Properties *)

(** ** Arrays *)
Section ArrayFacts.
Context `{Scalar}.

Lemma nrows_T (A : ndarray) : nrows (T A) = ncols A.
Proof. unfold nrows, T; simpl. by rewrite length_map, length_seq. Qed.

(** A column of the transpose is a row of the array. *)
Lemma column_T (A : ndarray) (k : nat) (r : list F) :
  wf A → rows A !! k = Some r → column k (T A) = r.
Proof.
  intros Hwf Hk. unfold column, T; simpl.
  rewrite map_map.
  assert (Hlen : length r = ncols A).
  { eapply Forall_lookup_1 in Hwf; eauto. }
  rewrite <- Hlen.
  apply list_eq; intros j.
  rewrite list_lookup_fmap.
  destruct (decide (j < length r)) as [Hj|Hj].
  - rewrite lookup_seq_lt by done; simpl.
    unfold column. 
    destruct (lookup_lt_is_Some_2 r j Hj) as [x Hx].
    rewrite Hx. f_equal.
    erewrite nth_lookup_Some; [|rewrite list_lookup_fmap, Hk; done].
    by apply nth_lookup_Some.
  - rewrite lookup_seq_ge by lia; simpl.
    symmetry; apply lookup_ge_None; lia.
Qed.

(** The product of an array with its transpose is always defined. *)
Lemma dot_T (A : ndarray) : dot A (T A) = Ok (matmul A (T A)).
Proof. unfold dot. rewrite nrows_T. by rewrite decide_True. Qed.

(** Its entry [i, k] is the inner product of the rows [i] and [k]. *)
Lemma item_matmul_T (A : ndarray) (i k : nat) (ri rk : list F) :
  wf A → rows A !! i = Some ri → rows A !! k = Some rk →
  item (matmul A (T A)) i k = Some (inner ri rk).
Proof.
  intros Hwf Hi Hk. unfold item, matmul; simpl.
  rewrite list_lookup_fmap, Hi; simpl.
  rewrite list_lookup_fmap.
  assert (k < nrows A) by (eapply lookup_lt_Some; eauto).
  rewrite lookup_seq_lt by done; simpl.
  by rewrite (column_T A k rk).
Qed.

End ArrayFacts.

(** ** [RFF], whatever fills the blanks *)
Section RFFFacts.
Context `{Scalar} `{!NumpyRandom} `{!GPyLib} `{!RFF.Blanks}.

(** An instance is unfitted when its [fitted] attribute is [False]: the
    state [__init__] leaves it in, and that only [fit] assigns to. *)
Definition unfitted (σ : World) (self : loc) : Prop :=
  ∃ o, heap σ !! self = Some (ObjRFF o) ∧ fitted o = false.

Lemma get_lookup (σ : World) (self : loc) (o : RFF_obj) :
  heap σ !! self = Some (ObjRFF o) → RFF.get self σ = (Ok o, σ).
Proof. intros Ho. unfold RFF.get. by rewrite Ho. Qed.

Lemma get_Ok (σ σ' : World) (self : loc) (o : RFF_obj) :
  RFF.get self σ = (Ok o, σ') → σ' = σ ∧ heap σ !! self = Some (ObjRFF o).
Proof.
  unfold RFF.get. destruct (heap σ !! self) as [[o'|o']|]; intros [=]; subst; done.
Qed.

(** X14.  The instance [RFF(...)] returns is new and unfitted, and holds
    the arguments as they were bound; no other object and not the random
    state are touched. *)
Lemma init_unfitted (args : list pyval) (kwargs : list (string * pyval))
    (σ σ' : World) (self : loc) :
  RFF.__init__ args kwargs σ = (Ok self, σ') →
  heap σ !! self = None ∧ unfitted σ' self ∧
  ∃ b, bind_args RFF.params args kwargs = Ok b ∧
       heap σ' = <[self := ObjRFF {| gamma := arg b "gamma";
                                     kernel := arg b "kernel";
                                     n_components := arg b "n_components";
                                     fitted := false; w := None; u := None |}]>
                   (heap σ) ∧
       np_random σ' = np_random σ.
Proof.
  unfold RFF.__init__, bind, lift, alloc.
  destruct (bind_args RFF.params args kwargs) as [b|e]; [|done].
  intros [= <- <-]; simpl. split_and!.
  - apply not_elem_of_dom, is_fresh.
  - eexists; split; [apply lookup_insert_eq|done].
  - by exists b.
Qed.

(** C4.  On an unfitted instance - one [fit] has not been called on -
    [transform] and [compute_kernel] raise [NotFittedError], for every
    input [X], and leave the world as it was. *)
Theorem unfitted_raises_NotFittedError (σ : World) (self : loc) (X : ndarray) :
  unfitted σ self →
  RFF.transform self X σ =
    (Raise (NotFittedError
       "RBF_MonteCarlo must be fitted beform computing the feature map Z"), σ) ∧
  RFF.compute_kernel self X σ =
    (Raise (NotFittedError
       "RBF_MonteCarlo must be fitted beform computing the kernel matrix"), σ).
Proof.
  intros (o & Ho & Hf).
  unfold RFF.transform, RFF.compute_kernel, bind.
  rewrite (get_lookup σ self o Ho), Hf; simpl.
  split; reflexivity.
Qed.

(** A call that returns was made on a fitted instance. *)
Lemma transform_Ok_fitted (σ σ' : World) (self : loc) (X Φ : ndarray) :
  RFF.transform self X σ = (Ok Φ, σ') →
  ∃ o, heap σ !! self = Some (ObjRFF o) ∧ fitted o = true ∧
       RFF.blank_Z self X σ = (Ok Φ, σ').
Proof.
  unfold RFF.transform, bind. intros Ht.
  destruct (RFF.get self σ) as [[o|e] σ1] eqn:Hg; [|done].
  apply get_Ok in Hg as [-> Ho].
  exists o. split; [done|].
  destruct (fitted o); simpl in Ht; [|done].
  split; [done|].
  unfold ret in Ht.
  destruct (RFF.blank_Z self X σ) as [[Z|e] σ2]; by inversion Ht.
Qed.

(** [compute_kernel] changes the world as [transform] does, and no more. *)
Lemma compute_kernel_world (σ : World) (self : loc) (X : ndarray) :
  (RFF.compute_kernel self X σ).2 = (RFF.transform self X σ).2.
Proof.
  unfold RFF.compute_kernel, bind.
  destruct (RFF.get self σ) as [[o|e] σ1] eqn:Hg.
  - apply get_Ok in Hg as [-> Ho].
    destruct (fitted o) eqn:Hf; simpl.
    + destruct (RFF.transform self X σ) as [[Z|e] σ2]; [|done].
      unfold lift, ret. by destruct (dot Z (T Z)).
    + unfold RFF.transform, bind. by rewrite (get_lookup σ self o Ho), Hf.
  - unfold RFF.transform, bind. by rewrite Hg.
Qed.

(** C2.  Whenever [transform(X)] returns a matrix [Φ], [compute_kernel(X)]
    returns the matrix product of [Φ] with its transpose, [Φ.dot(Φ.T)]; when
    [Φ] is rectangular, its entry [i, k] is the inner product of the rows
    [i] and [k] of [Φ]. *)
Theorem compute_kernel_is_Gram (σ σ' : World) (self : loc) (X Φ : ndarray) :
  RFF.transform self X σ = (Ok Φ, σ') →
  RFF.compute_kernel self X σ = (Ok (matmul Φ (T Φ)), σ') ∧
  dot Φ (T Φ) = Ok (matmul Φ (T Φ)) ∧
  (wf Φ → ∀ i k ri rk,
     rows Φ !! i = Some ri → rows Φ !! k = Some rk →
     item (matmul Φ (T Φ)) i k = Some (inner ri rk)).
Proof.
  intros Ht.
  destruct (transform_Ok_fitted _ _ _ _ _ Ht) as (o & Ho & Hf & _).
  split_and!.
  - unfold RFF.compute_kernel, bind.
    rewrite (get_lookup σ self o Ho), Hf; simpl.
    rewrite Ht. unfold lift, ret. by rewrite dot_T.
  - apply dot_T.
  - intros Hwf i k ri rk Hi Hk. by apply item_matmul_T.
Qed.

(** [fit] has no [else] branch: when [kernel] is neither "rbf" nor
    "laplace" neither assignment of [self.w] is run. *)
Lemma fit_other_kernel_skips_w (σ : World) (self : loc) (o : RFF_obj)
    (X : ndarray) (y : pyval) :
  heap σ !! self = Some (ObjRFF o) →
  is_str (kernel o) "rbf" = false → is_str (kernel o) "laplace" = false →
  RFF.fit self X y σ =
    (let* v := RFF.blank_u self X y (ncols X) in
     RFF.set_u self v;; RFF.set_fitted self true;; ret self) σ.
Proof.
  intros Ho Hrbf Hlap.
  unfold RFF.fit. unfold bind at 1.
  rewrite (get_lookup σ self o Ho), Hrbf, Hlap.
  unfold bind at 1. reflexivity.
Qed.

End RFFFacts.

(** ** [RFF] with the blanks filled in from the specification *)
Section RFFSpecFacts.
Context `{Scalar} `{!NumpyRandom} `{!GPyLib} `{!RFFSpec.Seeds}.

(** What [transform] returns on an instance with the attributes [o]. *)
Definition transformed (o : RFF_obj) (X : ndarray) : result ndarray :=
  if negb (fitted o) then
    Raise (NotFittedError
      "RBF_MonteCarlo must be fitted beform computing the feature map Z")
  else
    match w o, u o, n_components o with
    | None, _, _ => Raise (AttributeError "'RFF' object has no attribute 'w'")
    | Some _, None, _ =>
        Raise (AttributeError "'RFF' object has no attribute 'u'")
    | Some wm, Some um, PyInt M =>
        if decide (ncols X = ncols wm) then Ok (RFFSpec.features M wm um X)
        else Raise (RFFSpec.DimensionMismatch
                      "X does not have the fitted dimensionality")
    | Some _, Some _, _ => Raise (TypeError "an integer is required")
    end.

Lemma transform_lookup (σ : World) (self : loc) (o : RFF_obj) (X : ndarray) :
  heap σ !! self = Some (ObjRFF o) →
  RFFSpec.transform self X σ = (transformed o X, σ).
Proof.
  intros Ho.
  unfold RFFSpec.transform, RFF.transform, transformed, bind.
  rewrite (get_lookup σ self o Ho).
  destruct (fitted o); simpl; [|done].
  unfold RFFSpec.feature_map, RFFSpec.get_w, RFFSpec.get_u, bind.
  rewrite (get_lookup σ self o Ho); simpl.
  rewrite (get_lookup σ self o Ho); simpl.
  destruct (w o) as [wm|]; simpl; [|done].
  rewrite (get_lookup σ self o Ho); simpl.
  destruct (u o) as [um|]; simpl; [|done].
  unfold lift, ret, raise.
  destruct (n_components o); simpl; try done.
  by destruct (decide (ncols X = ncols wm)).
Qed.

(** [transform] reads the world and leaves it as it is. *)
Lemma transform_world (σ : World) (self : loc) (X : ndarray) :
  (RFFSpec.transform self X σ).2 = σ.
Proof.
  destruct (heap σ !! self) as [[o|o]|] eqn:Ho.
  - by rewrite (transform_lookup σ self o X Ho).
  - unfold RFFSpec.transform, RFF.transform, bind, RFF.get. by rewrite Ho.
  - unfold RFFSpec.transform, RFF.transform, bind, RFF.get. by rewrite Ho.
Qed.

(** C9.  Two calls of [transform(X)] in a row return the same result, and
    neither [transform] nor [compute_kernel] changes anything: the heap,
    hence [w], [u] and [fitted] of every instance, and the random state
    are after the call what they were before. *)
Theorem transform_twice_same_no_mutation (σ : World) (self : loc) (X : ndarray) :
  (RFFSpec.transform self X σ).2 = σ ∧
  (RFFSpec.compute_kernel self X σ).2 = σ ∧
  RFFSpec.transform self X (RFFSpec.transform self X σ).2 =
    RFFSpec.transform self X σ ∧
  (let* Φ1 := RFFSpec.transform self X in
   let* Φ2 := RFFSpec.transform self X in
   ret (Φ1, Φ2)) σ =
    (let* Φ := RFFSpec.transform self X in ret (Φ, Φ)) σ.
Proof.
  pose proof (transform_world σ self X) as Hw.
  split_and!.
  - exact Hw.
  - unfold RFFSpec.compute_kernel. rewrite compute_kernel_world. exact Hw.
  - by rewrite Hw.
  - unfold bind.
    destruct (RFFSpec.transform self X σ) as [[Φ|e] σ1] eqn:Ht; [|done].
    simpl in Hw; subst σ1. by rewrite Ht.
Qed.

(** C1.  On a fitted mapper that stores M = [n_components] frequency
    vectors [w] and M phases [u], and for [X] with as many columns as [w],
    [transform(X)] returns a matrix Φ with one row per row of [X] and M
    columns, and Φ[i, j] = sqrt(2 / M) * cos(w_j . x_i + u_j). *)
Theorem transform_formula (σ : World) (self : loc) (o : RFF_obj)
    (M : Z) (wm : ndarray) (um : list F) (X : ndarray) :
  heap σ !! self = Some (ObjRFF o) →
  fitted o = true →
  n_components o = PyInt M → w o = Some wm → u o = Some um →
  nrows wm = Z.to_nat M → length um = Z.to_nat M →
  ncols X = ncols wm →
  ∃ Φ, RFFSpec.transform self X σ = (Ok Φ, σ) ∧
       nrows Φ = nrows X ∧ ncols Φ = Z.to_nat M ∧ wf Φ ∧
       ∀ i j x wj bj,
         rows X !! i = Some x → rows wm !! j = Some wj → um !! j = Some bj →
         item Φ i j =
           Some (Fmul (Fsqrt (Fdiv (F_of_Z 2) (F_of_Z M)))
                      (Fcos (Fadd (inner wj x) bj))).
Proof.
  intros Ho Hf HM Hw Hu Hnw Hnu Hd.
  exists (RFFSpec.features M wm um X).
  split_and!.
  - rewrite (transform_lookup σ self o X Ho).
    unfold transformed. rewrite Hf, Hw, Hu, HM; simpl.
    by rewrite decide_True.
  - unfold nrows, RFFSpec.features; simpl. by rewrite length_map.
  - by unfold RFFSpec.features.
  - unfold wf, RFFSpec.features; simpl.
    apply Forall_forall. intros r Hr.
    apply list_elem_of_fmap in Hr as (x & -> & _).
    rewrite length_zip_with. unfold nrows in *. lia.
  - intros i j x wj bj Hi Hj Hb.
    unfold item, RFFSpec.features; simpl.
    rewrite list_lookup_fmap, Hi; simpl.
    rewrite lookup_zip_with, Hj; simpl. by rewrite Hb.
Qed.

(** C10.  [fit] reads of [X] the number of its columns and nothing else,
    and does not read [y]: on two inputs with as many columns, from the
    same world, it returns the same result and leaves the same world. *)
Theorem fit_ignores_y_and_entries (σ : World) (self : loc)
    (X1 X2 : ndarray) (y1 y2 : pyval) :
  ncols X1 = ncols X2 →
  RFFSpec.fit self X1 y1 σ = RFFSpec.fit self X2 y2 σ.
Proof.
  intros Hd.
  unfold RFFSpec.fit, RFF.fit.
  rewrite Hd.
  cbn [RFF.blank_w_rbf RFF.blank_w_laplace RFF.blank_u RFFSpec.blanks].
  unfold RFFSpec.w_rbf, RFFSpec.w_laplace, RFFSpec.phases.
  reflexivity.
Qed.

(** *** [fit], as a function of the attributes and the generator *)









(** *** Where the draws come from *)





Lemma bind_positional_TypeError (ps : list param) (args : list pyval)
    (bound : gmap string pyval) (e : exn) :
  bind_positional ps args bound = Raise e → exc_class e = "TypeError".
Proof.
  revert ps bound. induction args as [|a args IH]; intros [|[n d] ps] bound;
    simpl; try done.
  - by intros [= <-].
  - apply IH.
Qed.



End RFFSpecFacts.

(** ** Shuffles and selections without replacement *)
Section Shuffles.

(** The ordered selections of [k] distinct elements of [l]. *)
Fixpoint arrangements (k : nat) (l : list nat) : list (list nat) :=
  match k with
  | 0 => [[]]
  | S k' => x ← l; (x ::.) <$> arrangements k' (filter (λ y, y ≠ x) l)
  end.

(** The outcomes of [np.random.permutation(N)]: the orderings of
    [range(N)]. *)
Definition shuffles (N : nat) : list (list nat) := arrangements N (seq 0 N).

Lemma elem_of_arrangements (k : nat) (l p : list nat) :
  p ∈ arrangements k l ↔ length p = k ∧ NoDup p ∧ ∀ x, x ∈ p → x ∈ l.
Proof.
  revert l p. induction k as [|k IH]; intros l p; simpl.
  - rewrite list_elem_of_singleton. split.
    + intros ->. split_and!; [done|constructor|]. intros x Hx.
      by apply elem_of_nil in Hx.
    + intros (Hlen & _). by destruct p.
  - rewrite list_elem_of_bind. split.
    + intros (x & Hp & Hx).
      apply list_elem_of_fmap in Hp as (p' & -> & Hp').
      apply IH in Hp' as (Hlen & Hnd & Hsub). split_and!.
      * simpl. by rewrite Hlen.
      * constructor; [|done]. intros Hin. apply Hsub in Hin.
        apply list_elem_of_filter in Hin as [Hne _]. done.
      * intros z Hz. apply elem_of_cons in Hz as [->|Hz]; [done|].
        apply Hsub in Hz. by apply list_elem_of_filter in Hz as [_ ?].
    + intros (Hlen & Hnd & Hsub).
      destruct p as [|x p']; [done|].
      apply NoDup_cons in Hnd as [Hx Hnd].
      exists x. split; [|apply Hsub; left].
      apply list_elem_of_fmap. exists p'. split; [done|].
      apply IH. split_and!; [simpl in Hlen; lia|done|].
      intros z Hz. apply list_elem_of_filter. split.
      * intros ->. done.
      * apply Hsub. by right.
Qed.

Lemma NoDup_arrangements (k : nat) (l : list nat) :
  NoDup l → NoDup (arrangements k l).
Proof.
  revert l. induction k as [|k IH]; intros l Hl; simpl.
  - apply NoDup_singleton.
  - apply NoDup_bind; [| |done].
    + intros x1 x2 p _ _ H1 H2.
      apply list_elem_of_fmap in H1 as (p1 & -> & _).
      apply list_elem_of_fmap in H2 as (p2 & [= -> _] & _). done.
    + intros x _. apply NoDup_fmap_2; [intros ?? [=]; done|].
      apply IH. by apply NoDup_filter.
Qed.

Lemma length_filter_ne (l : list nat) (x : nat) :
  NoDup l → x ∈ l → S (length (filter (λ y, y ≠ x) l)) = length l.
Proof.
  induction l as [|a l IH]; intros Hnd Hx.
  - by apply elem_of_nil in Hx.
  - apply NoDup_cons in Hnd as [Ha Hnd].
    destruct (decide (a = x)) as [->|Hne].
    + rewrite filter_cons_False by (intros ?; done). simpl. f_equal.
      f_equal. clear IH Hx Hnd. induction l as [|b l IHl]; [done|].
      apply not_elem_of_cons in Ha as [Hb Ha].
      rewrite filter_cons_True by done. f_equal. by apply IHl.
    + rewrite filter_cons_True by done. simpl. f_equal.
      apply IH; [done|]. by apply elem_of_cons in Hx as [->|Hx].
Qed.

Lemma length_bind_const {A B} (f : A → list B) (l : list A) (a b : nat) :
  (∀ x, x ∈ l → length (f x) * a = b) →
  length (l ≫= f) * a = length l * b.
Proof.
  induction l as [|x l IH]; intros Hf; [done|].
  rewrite bind_cons, length_app. simpl.
  rewrite Nat.mul_add_distr_r, (Hf x) by left.
  rewrite IH; [lia|]. intros z Hz. apply Hf. by right.
Qed.

(** There are N! / (N - k)! selections of [k] among N. *)
Lemma length_arrangements (k : nat) (l : list nat) :
  NoDup l → k ≤ length l →
  length (arrangements k l) * fact (length l - k) = fact (length l).
Proof.
  revert l. induction k as [|k IH]; intros l Hnd Hk; simpl.
  - rewrite Nat.sub_0_r. lia.
  - destruct (length l) as [|N] eqn:HN; [lia|].
    rewrite (length_bind_const _ l (fact (S N - S k)) (fact N)).
    + rewrite HN. simpl. lia.
    + intros x Hx. rewrite length_fmap.
      pose proof (length_filter_ne l x Hnd Hx) as Hlen.
      assert (Hlen' : length (filter (λ y, y ≠ x) l) = N) by lia.
      specialize (IH (filter (λ y, y ≠ x) l)).
      rewrite Hlen' in IH. simpl. apply IH; [by apply NoDup_filter|lia].
Qed.

Lemma filter_bind {A B} (P : B → Prop) `{∀ y, Decision (P y)}
    (f : A → list B) (l : list A) :
  filter P (l ≫= f) = l ≫= (λ x, filter P (f x)).
Proof.
  induction l as [|x l IH]; [done|].
  by rewrite !bind_cons, filter_app, IH.
Qed.

Lemma length_bind_single {A B} `{EqDecision A} (f : A → list B)
    (l : list A) (a : A) :
  NoDup l → a ∈ l → (∀ x, x ∈ l → x ≠ a → f x = []) →
  length (l ≫= f) = length (f a).
Proof.
  induction l as [|x l IH]; intros Hnd Ha Hf.
  - by apply elem_of_nil in Ha.
  - apply NoDup_cons in Hnd as [Hx Hnd].
    rewrite bind_cons, length_app.
    destruct (decide (x = a)) as [->|Hne].
    + assert (Hnil : l ≫= f = []).
      { clear IH Ha. induction l as [|z l IHl]; [done|].
        apply not_elem_of_cons in Hx as [Hz Hx].
        apply NoDup_cons in Hnd as [_ Hnd].
        rewrite bind_cons, (Hf z) by (try (right; left); done). simpl.
        apply IHl; [done|done|].
        intros w Hw Hwa. apply Hf; [|done].
        apply elem_of_cons in Hw as [->|Hw]; [left|right; by right]. }
      rewrite Hnil. simpl. lia.
    + rewrite (Hf x) by (try left; done). simpl.
      apply IH; [done| |].
      * by apply elem_of_cons in Ha as [->|Ha].
      * intros z Hz. apply Hf. by right.
Qed.

Lemma filter_all {A} (P : A → Prop) `{∀ x, Decision (P x)} (l : list A) :
  (∀ x, P x) → filter P l = l.
Proof.
  intros HP. induction l as [|x l IH]; [done|].
  rewrite filter_cons_True by done. by f_equal.
Qed.

Lemma filter_prefix_cons_eq (a n : nat) (sel : list nat)
    (L : list (list nat)) :
  filter (λ p, take (S n) p = a :: sel) ((a ::.) <$> L) =
    (a ::.) <$> filter (λ p, take n p = sel) L.
Proof.
  induction L as [|p ps IH]; [done|].
  rewrite fmap_cons.
  destruct (decide (take n p = sel)) as [Hp|Hp].
  - rewrite !filter_cons_True; [|done|simpl; by rewrite Hp].
    rewrite fmap_cons. by f_equal.
  - rewrite !filter_cons_False; [done|done|].
    simpl. intros [=]. done.
Qed.

Lemma filter_prefix_cons_ne (a x n : nat) (sel : list nat)
    (L : list (list nat)) :
  x ≠ a → filter (λ p, take (S n) p = a :: sel) ((x ::.) <$> L) = [].
Proof.
  intros Hx. induction L as [|p ps IH]; [done|].
  rewrite fmap_cons, filter_cons_False; [done|].
  simpl. intros [=]. done.
Qed.

(** Every selection [sel] of M distinct elements of [l] is the prefix of
    exactly (N - M)! orderings of [l]. *)
Lemma count_prefix (sel l : list nat) :
  NoDup l → NoDup sel → (∀ x, x ∈ sel → x ∈ l) →
  length (filter (λ p, take (length sel) p = sel)
                 (arrangements (length l) l)) =
    fact (length l - length sel).
Proof.
  revert l. induction sel as [|a sel IH]; intros l Hl Hsel Hsub.
  - simpl. rewrite Nat.sub_0_r.
    pose proof (length_arrangements (length l) l Hl (le_n _)) as Hlen.
    rewrite Nat.sub_diag in Hlen. simpl in Hlen.
    rewrite filter_all by done. lia.
  - apply NoDup_cons in Hsel as [Ha Hsel].
    assert (Hal : a ∈ l) by (apply Hsub; left).
    pose proof (length_filter_ne l a Hl Hal) as Hlen.
    destruct (length l) as [|N] eqn:HN; [lia|].
    injection Hlen as Hlen. simpl arrangements.
    rewrite filter_bind.
    rewrite (length_bind_single _ l a Hl Hal).
    + simpl length. rewrite filter_prefix_cons_eq, length_fmap, Nat.sub_succ.
      specialize (IH (filter (λ y, y ≠ a) l)).
      rewrite Hlen in IH. apply IH.
      * by apply NoDup_filter.
      * done.
      * intros x Hx. apply list_elem_of_filter. split.
        -- intros ->. done.
        -- apply Hsub. by right.
    + intros x _ Hxa. simpl length. by apply filter_prefix_cons_ne.
Qed.

Lemma elem_of_shuffles (N : nat) (p : list nat) :
  p ∈ shuffles N ↔ p ≡ₚ seq 0 N.
Proof.
  unfold shuffles. rewrite elem_of_arrangements. split.
  - intros (Hlen & Hnd & Hsub).
    apply submseteq_length_Permutation.
    + by apply NoDup_submseteq.
    + by rewrite Hlen, length_seq.
  - intros Hp. split_and!.
    + by rewrite Hp, length_seq.
    + rewrite Hp. apply NoDup_seq.
    + intros x. by rewrite Hp.
Qed.

End Shuffles.

(** ** [SparseGPModel] *)
Section SparseGPModelFacts.
Context `{Scalar} `{!NumpyRandom} `{!GPyLib}.

Lemma sgp_get_lookup (σ : World) (self : loc) (o : SparseGPModel_obj) :
  heap σ !! self = Some (ObjSGP o) → SparseGPModel.get self σ = (Ok o, σ).
Proof. intros Ho. unfold SparseGPModel.get. by rewrite Ho. Qed.

(** The instance [SparseGPModel(kernel, num_inducing)] returns is new and
    has no [model_] yet. *)
Lemma sgp_init_lookup (k : Kern) (n : option Z) (σ : World) :
  ∃ self σ',
    SparseGPModel.__init__ k n σ = (Ok self, σ') ∧
    heap σ !! self = None ∧ np_random σ' = np_random σ ∧
    heap σ' = <[self := ObjSGP {| kernel_ := k;
                                  num_inducing := default 100%Z n;
                                  model_ := None |}]> (heap σ).
Proof.
  eexists _, _. split; [reflexivity|]. simpl. split_and!; try done.
  apply not_elem_of_dom, is_fresh.
Qed.

(** Every index of a shuffled [range(N)] names a row of an array of [N]
    rows, so the selection of rows cannot fail. *)
Lemma take_rows_Ok (X : ndarray) (sel : list nat) :
  (∀ i, i ∈ sel → i < nrows X) →
  ∃ Z, take_rows X sel = Ok Z ∧ ncols Z = ncols X ∧
       Forall2 (λ i r, rows X !! i = Some r) sel (rows Z).
Proof.
  intros Hsel. unfold take_rows.
  destruct (mapM (λ i, rows X !! i) sel) as [rs|] eqn:Hm.
  - eexists; split; [done|]. split; [done|]. simpl.
    by apply mapM_Some_1 in Hm.
  - apply mapM_None_1 in Hm. apply Exists_exists in Hm as (i & Hi & Hnone).
    apply Hsel in Hi. apply lookup_ge_None in Hnone. unfold nrows in Hi. lia.
Qed.

Lemma slice_to_sublist {A} (m : Z) (l : list A) : slice_to m l `prefix_of` l.
Proof.
  unfold slice_to. destruct (0 <=? m)%Z; apply prefix_take.
Qed.

Lemma slice_to_nonneg {A} (m : Z) (l : list A) :
  (0 ≤ m)%Z → slice_to m l = take (Z.to_nat m) l.
Proof. intros Hm. unfold slice_to. by rewrite (proj2 (Z.leb_le 0 m) Hm). Qed.

(** What [fit] does once the inducing inputs [Z] are selected and the
    random state is [s']: it builds GPy's model from [Z], fixes its inducing
    inputs, optimizes it, and leaves it in [self.model_]. *)
Definition fit_on (self : loc) (o : SparseGPModel_obj) (X y Z : ndarray)
    (s' : RandomState) (σ : World) : result unit * World :=
  match SparseGPRegression X y (kernel_ o) Z with
  | Raise e => (Raise e, {| np_random := s'; heap := heap σ |})
  | Ok m =>
      let '(e, m') := optimize 100 (inducing_inputs_fix m) in
      (match e with Some e => Raise e | None => Ok () end,
       {| np_random := s';
          heap := <[self := ObjSGP {| kernel_ := kernel_ o;
                                      num_inducing := num_inducing o;
                                      model_ := Some m' |}]> (heap σ) |})
  end.

Lemma set_model__lookup (σ : World) (self : loc) (o : SparseGPModel_obj)
    (m : GPModel) :
  heap σ !! self = Some (ObjSGP o) →
  SparseGPModel.set_model_ self m σ =
    (Ok (), {| np_random := np_random σ;
               heap := <[self := ObjSGP {| kernel_ := kernel_ o;
                                           num_inducing := num_inducing o;
                                           model_ := Some m |}]> (heap σ) |}).
Proof.
  intros Ho. unfold SparseGPModel.set_model_, bind.
  by rewrite (sgp_get_lookup σ self o Ho).
Qed.

Lemma get_model__lookup (σ : World) (self : loc) (o : SparseGPModel_obj)
    (m : GPModel) :
  heap σ !! self = Some (ObjSGP o) → model_ o = Some m →
  SparseGPModel.get_model_ self σ = (Ok m, σ).
Proof.
  intros Ho Hm. unfold SparseGPModel.get_model_, bind.
  by rewrite (sgp_get_lookup σ self o Ho), Hm.
Qed.

Lemma sgp_fit_lookup (σ : World) (self : loc) (o : SparseGPModel_obj)
    (X y : ndarray) :
  heap σ !! self = Some (ObjSGP o) →
  SparseGPModel.fit self X y σ =
    let '(idx, s') := permutation (nrows X) (np_random σ) in
    match take_rows X (slice_to (num_inducing o) idx) with
    | Raise e => (Raise e, {| np_random := s'; heap := heap σ |})
    | Ok Z => fit_on self o X y Z s' σ
    end.
Proof.
  intros Ho. unfold SparseGPModel.fit, fit_on.
  unfold bind at 1. unfold draw.
  destruct (permutation (nrows X) (np_random σ)) as [idx s'].
  set (σ1 := {| np_random := s'; heap := heap σ |}).
  unfold bind at 1. rewrite (sgp_get_lookup σ1 self o Ho).
  unfold bind at 1. unfold lift at 1.
  destruct (take_rows X (slice_to (num_inducing o) idx)) as [Z|e]; [|done].
  unfold bind at 1. unfold lift at 1.
  destruct (SparseGPRegression X y (kernel_ o) Z) as [m|e]; [|done].
  unfold bind at 1. erewrite set_model__lookup by exact Ho.
  unfold bind at 1.
  erewrite get_model__lookup by (simpl; first [apply lookup_insert_eq | done]).
  unfold bind at 1.
  erewrite set_model__lookup by (simpl; apply lookup_insert_eq).
  unfold bind at 1.
  erewrite get_model__lookup by (simpl; first [apply lookup_insert_eq | done]).
  destruct (optimize 100 (inducing_inputs_fix m)) as [e m'].
  unfold bind at 1.
  erewrite set_model__lookup by (simpl; apply lookup_insert_eq).
  simpl. rewrite !insert_insert_eq. by destruct e.
Qed.

(** An instance has not been fitted when it has no [model_]: the state
    [__init__] leaves it in, and that only [fit] changes. *)
Definition no_model (σ : World) (self : loc) : Prop :=
  ∃ o, heap σ !! self = Some (ObjSGP o) ∧ model_ o = None.

(** C5, as amended.  On an instance [fit] has not been called on,
    [predict(X)] raises for every [X]: reading [self.model_] fails with
    Python's [AttributeError], the class has no check of its own and no
    [NotFittedError].  The world stays as it was. *)
Theorem predict_before_fit_raises (σ : World) (self : loc) (X : ndarray) :
  no_model σ self →
  SparseGPModel.predict self X σ =
    (Raise (AttributeError
       "'SparseGPModel' object has no attribute 'model_'"), σ).
Proof.
  intros (o & Ho & Hm).
  unfold SparseGPModel.predict, SparseGPModel.get_model_, bind.
  rewrite (sgp_get_lookup σ self o Ho), Hm. reflexivity.
Qed.

(** C8, as amended.  On a fitted instance, [predict(X_new)] returns the
    predictive mean alone: of the pair (mean, variance) that GPy's model
    computes, the variance is dropped.  It raises what GPy's [predict]
    raises, and changes nothing. *)
Theorem predict_returns_mean_only (σ : World) (self : loc)
    (o : SparseGPModel_obj) (m : GPModel) (X : ndarray) :
  heap σ !! self = Some (ObjSGP o) → model_ o = Some m →
  SparseGPModel.predict self X σ =
    (match model_predict m X with
     | Ok (mean, variance) => Ok mean
     | Raise e => Raise e
     end, σ).
Proof.
  intros Ho Hm.
  unfold SparseGPModel.predict, bind.
  rewrite (get_model__lookup σ self o m Ho Hm).
  unfold lift, ret.
  destruct (model_predict m X) as [[mean variance]|e]; reflexivity.
Qed.

(** C6, as amended.  No method checks the number of features or of
    inducing points.  [RFF(n_components=n)] and
    [SparseGPModel(k, num_inducing=n)] return an instance that stores [n],
    for every integer [n].  [SparseGPModel.fit] hands GPy the rows
    [X[idx[:n]]] - none when [n] is 0, all of them when [n] is the number of
    rows or more - and raises only what GPy's constructor or optimizer
    raises. *)
Theorem no_check_of_M :
  (∀ (σ : World) (n : Z),
     ∃ self σ' o,
       RFF.__init__ [] [("n_components", PyInt n)] σ = (Ok self, σ') ∧
       heap σ' !! self = Some (ObjRFF o) ∧ n_components o = PyInt n) ∧
  (∀ (σ : World) (k : Kern) (n : Z),
     ∃ self σ' o,
       SparseGPModel.__init__ k (Some n) σ = (Ok self, σ') ∧
       heap σ' !! self = Some (ObjSGP o) ∧ num_inducing o = n) ∧
  (∀ (σ : World) (self : loc) (o : SparseGPModel_obj) (X y : ndarray),
     heap σ !! self = Some (ObjSGP o) →
     ∃ Z,
       take_rows X (slice_to (num_inducing o)
                      (permutation (nrows X) (np_random σ)).1) = Ok Z ∧
       SparseGPModel.fit self X y σ =
         fit_on self o X y Z (permutation (nrows X) (np_random σ)).2 σ ∧
       (num_inducing o = 0%Z → nrows Z = 0) ∧
       ((Z.of_nat (nrows X) ≤ num_inducing o)%Z → nrows Z = nrows X) ∧
       (∀ e σ', SparseGPModel.fit self X y σ = (Raise e, σ') →
          SparseGPRegression X y (kernel_ o) Z = Raise e ∨
          ∃ m, SparseGPRegression X y (kernel_ o) Z = Ok m ∧
               (optimize 100 (inducing_inputs_fix m)).1 = Some e)).
Proof.
  split_and!.
  - intros σ n. eexists _, _, _. split; [reflexivity|].
    simpl. split; [apply lookup_insert_eq|]. reflexivity.
  - intros σ k n.
    destruct (sgp_init_lookup k (Some n) σ) as (self & σ' & -> & _ & _ & Hh).
    eexists _, _, _. split; [done|]. rewrite Hh.
    split; [apply lookup_insert_eq|done].
  - intros σ self o X y Ho.
    pose proof (permutation_Permutation (nrows X) (np_random σ)) as Hperm.
    rewrite (sgp_fit_lookup σ self o X y Ho).
    destruct (permutation (nrows X) (np_random σ)) as [idx s']. simpl in *.
    destruct (take_rows_Ok X (slice_to (num_inducing o) idx)) as (Z & HZ & _ & Hrows).
    { intros i Hi.
      eapply elem_of_prefix in Hi; [|apply slice_to_sublist].
      rewrite Hperm in Hi. apply elem_of_seq in Hi. lia. }
    assert (Hlen : length idx = nrows X).
    { by rewrite Hperm, length_seq. }
    exists Z. rewrite HZ. split_and!; try done.
    + intros Hn. apply Forall2_length in Hrows. unfold nrows at 1.
      rewrite <- Hrows, Hn. reflexivity.
    + intros Hn. apply Forall2_length in Hrows. unfold nrows at 1.
      rewrite <- Hrows, slice_to_nonneg by lia.
      rewrite length_take. lia.
    + unfold fit_on.
      destruct (SparseGPRegression X y (kernel_ o) Z) as [m|e0];
        intros e σ'; [|intros [= -> _]; by left].
      destruct (optimize 100 (inducing_inputs_fix m)) as [[e0|] m'] eqn:Hopt;
        [|done].
      intros [= -> _]. right. exists m. by rewrite Hopt.
Qed.

(** C7.  [fit(X, y)] takes no inducing inputs from its caller: it always
    draws them itself, as the rows of [X] at the first M entries of a
    shuffle of [range(N)].  The rows handed to GPy are rows of [X], at
    pairwise distinct indices, M of them when 0 <= M <= N.  The selection is
    uniform: of the N! shuffles, each listed once in [shuffles N], exactly
    (N - M)! begin with any given sequence of M distinct indices - so a
    uniform shuffle selects every such sequence with the same probability. *)
Theorem inducing_inputs_drawn_without_replacement (σ : World) (self : loc)
    (o : SparseGPModel_obj) (X y : ndarray) :
  heap σ !! self = Some (ObjSGP o) →
  let N := nrows X in
  let M := num_inducing o in
  let idx := (permutation N (np_random σ)).1 in
  ∃ Z,
    take_rows X (slice_to M idx) = Ok Z ∧
    SparseGPModel.fit self X y σ =
      fit_on self o X y Z (permutation N (np_random σ)).2 σ ∧
    NoDup (slice_to M idx) ∧
    Forall2 (λ i r, i < N ∧ rows X !! i = Some r) (slice_to M idx) (rows Z) ∧
    (∀ r, r ∈ rows Z → r ∈ rows X) ∧
    ((0 ≤ M ≤ Z.of_nat N)%Z →
       nrows Z = Z.to_nat M ∧
       (∀ p, p ∈ shuffles N ↔ p ≡ₚ seq 0 N) ∧
       NoDup (shuffles N) ∧
       ∀ sel, NoDup sel → length sel = Z.to_nat M → (∀ i, i ∈ sel → i < N) →
         length (filter (λ p, slice_to M p = sel) (shuffles N)) =
           fact (N - Z.to_nat M)).
Proof.
  intros Ho N M idx.
  pose proof (permutation_Permutation N (np_random σ)) as Hperm.
  fold idx in Hperm.
  assert (Hnd : NoDup (slice_to M idx)).
  { destruct (slice_to_sublist M idx) as [k Hk].
    assert (Hidx : NoDup idx) by (rewrite Hperm; apply NoDup_seq).
    rewrite Hk in Hidx. by apply NoDup_app in Hidx as [? _]. }
  assert (Hlt : ∀ i, i ∈ slice_to M idx → i < N).
  { intros i Hi. eapply elem_of_prefix in Hi; [|apply slice_to_sublist].
    rewrite Hperm in Hi. apply elem_of_seq in Hi. lia. }
  destruct (take_rows_Ok X (slice_to M idx) Hlt) as (Z & HZ & _ & Hrows).
  exists Z. split_and!.
  - exact HZ.
  - rewrite (sgp_fit_lookup σ self o X y Ho).
    fold N M. subst idx.
    destruct (permutation N (np_random σ)) as [idx s']. simpl in *.
    by rewrite HZ.
  - exact Hnd.
  - eapply Forall2_impl; [|intros i r Hr; exact Hr].
    apply Forall2_same_length_lookup. split; [by eapply Forall2_length|].
    intros k i r Hi Hr. split.
    + apply Hlt. by eapply list_elem_of_lookup_2.
    + by eapply Forall2_lookup_lr in Hrows.
  - intros r Hr. apply list_elem_of_lookup in Hr as [k Hr].
    destruct (Forall2_lookup_r _ _ _ _ _ Hrows Hr) as (i & _ & Hi).
    by eapply list_elem_of_lookup_2.
  - intros HM. split_and!.
    + apply Forall2_length in Hrows. unfold nrows at 1.
      rewrite <- Hrows, slice_to_nonneg by lia.
      rewrite length_take.
      assert (length idx = N) by (by rewrite Hperm, length_seq). lia.
    + apply elem_of_shuffles.
    + apply NoDup_arrangements, NoDup_seq.
    + intros sel Hsel Hlen Hsub.
      pose proof (count_prefix sel (seq 0 N) (NoDup_seq 0 N) Hsel) as Hc.
      rewrite length_seq, Hlen in Hc. unfold shuffles. rewrite <- Hc.
      * f_equal. apply list_filter_iff. intros p.
        by rewrite slice_to_nonneg by lia.
      * intros x Hx. apply elem_of_seq. apply Hsub in Hx. lia.
Qed.

End SparseGPModelFacts.

(** * The statements above, at concrete inputs *)
Module Examples.
Import Sample.
#[local] Existing Instance R_scalar.
#[local] Existing Instance counter_random.
#[local] Existing Instance recording_gpy.
#[local] Existing Instance paired_seeds.
#[local] Existing Instance RFFSpec.blanks.

Definition num (z : Z) : F := F_of_Z z.

(** Three training points in the plane, and their targets. *)
Definition X3 : ndarray :=
  {| ncols := 2; rows := [[num 1; num 2]; [num 3; num 4]; [num 5; num 6]] |}.

Definition y3 : ndarray :=
  {| ncols := 1; rows := [[num 1]; [num 0]; [num 1]] |}.

(** One query point. *)
Definition Xq : ndarray := {| ncols := 2; rows := [[num 7; num 8]] |}.

(** A mapper fitted with two features in dimension two. *)
Definition fitted_rff : RFF_obj :=
  {| gamma := PyInt 1; kernel := PyStr "rbf"; n_components := PyInt 2;
     fitted := true;
     w := Some {| ncols := 2; rows := [[num 1; num 2]; [num 3; num 4]] |};
     u := Some [num 5; num 6] |}.

Definition fitted_world : World :=
  {| np_random := 0; heap := {[ 0 := ObjRFF fitted_rff ]} |}.

(** A fresh notebook in which [RFF()] has just been evaluated. *)
Definition unfitted_world : World := (RFF.__init__ [] [] (world0 42)).2.

(** A fresh notebook in which [SparseGPModel(kernel, num_inducing=n)] has
    just been evaluated. *)
Definition sgp_world (n : Z) : World :=
  (SparseGPModel.__init__ tt (Some n) (world0 42)).2.

Lemma unfitted_raises_NotFittedError_witness :
  RFF.transform 0 Xq unfitted_world =
    (Raise (NotFittedError
       "RBF_MonteCarlo must be fitted beform computing the feature map Z"),
     unfitted_world) ∧
  RFF.compute_kernel 0 Xq unfitted_world =
    (Raise (NotFittedError
       "RBF_MonteCarlo must be fitted beform computing the kernel matrix"),
     unfitted_world).
Proof.
  apply (unfitted_raises_NotFittedError unfitted_world 0 Xq).
  eexists. split; reflexivity.
Defined.

Lemma transform_formula_witness :
  ∃ Φ, RFFSpec.transform 0 Xq fitted_world = (Ok Φ, fitted_world) ∧
       nrows Φ = 1 ∧ ncols Φ = 2 ∧ wf Φ ∧
       ∀ i j x wj bj,
         rows Xq !! i = Some x →
         [[num 1; num 2]; [num 3; num 4]] !! j = Some wj →
         [num 5; num 6] !! j = Some bj →
         item Φ i j =
           Some (Fmul (Fsqrt (Fdiv (F_of_Z 2) (F_of_Z 2)))
                      (Fcos (Fadd (inner wj x) bj))).
Proof.
  apply (transform_formula fitted_world 0 fitted_rff 2
           {| ncols := 2; rows := [[num 1; num 2]; [num 3; num 4]] |}
           [num 5; num 6] Xq); reflexivity.
Defined.

Definition Φq : ndarray :=
  RFFSpec.features 2 {| ncols := 2; rows := [[num 1; num 2]; [num 3; num 4]] |}
    [num 5; num 6] Xq.

Lemma compute_kernel_is_Gram_witness :
  RFF.compute_kernel 0 Xq fitted_world = (Ok (matmul Φq (T Φq)), fitted_world) ∧
  dot Φq (T Φq) = Ok (matmul Φq (T Φq)) ∧
  (wf Φq → ∀ i k ri rk,
     rows Φq !! i = Some ri → rows Φq !! k = Some rk →
     item (matmul Φq (T Φq)) i k = Some (inner ri rk)).
Proof.
  apply (compute_kernel_is_Gram fitted_world fitted_world 0 Xq Φq).
  reflexivity.
Defined.

Lemma fit_ignores_y_and_entries_witness :
  RFFSpec.fit 0 X3 PyNone unfitted_world =
  RFFSpec.fit 0 Xq (PyArr y3) unfitted_world.
Proof.
  apply (fit_ignores_y_and_entries unfitted_world 0 X3 Xq PyNone (PyArr y3)).
  reflexivity.
Defined.

(** A fresh notebook in which [RFF(kernel="linear")] has just been
    evaluated: [fit] goes through, and [transform] then finds no [w]. *)
Definition linear_world : World :=
  (RFF.__init__ [] [("kernel", PyStr "linear")] (world0 42)).2.

Definition linear_rff : RFF_obj :=
  {| gamma := PyInt 1; kernel := PyStr "linear"; n_components := PyInt 50;
     fitted := false; w := None; u := None |}.

Example transform_after_fit_other_kernel :
  (let* self := RFFSpec.fit 0 X3 PyNone in RFFSpec.transform self Xq)
    linear_world =
  (Raise (AttributeError "'RFF' object has no attribute 'w'"),
   (RFFSpec.fit 0 X3 PyNone linear_world).2).
Proof. reflexivity. Qed.


Definition fresh_rff : RFF_obj :=
  {| gamma := PyInt 1; kernel := PyStr "rbf"; n_components := PyInt 3;
     fitted := false; w := None; u := None |}.



(** The draws of an instance are its own: the instance at 2 has another
    seed, and stores other frequencies than the instance at 0 on the same
    [X] with the same hyperparameters. *)
Example other_seed_other_draws :
  (RFFSpec.sample_rbf fresh_rff 2 (RFFSpec.generator 0)).1 ≠
  (RFFSpec.sample_rbf fresh_rff 2 (RFFSpec.generator 2)).1.
Proof.
  intros Heq. cbn in Heq. injection Heq as Heq _.
  apply Reals.RIneq.eq_IZR in Heq. discriminate Heq.
Qed.


Lemma predict_before_fit_raises_witness :
  SparseGPModel.predict 0 Xq (sgp_world 100) =
    (Raise (AttributeError
       "'SparseGPModel' object has no attribute 'model_'"), sgp_world 100).
Proof.
  apply (predict_before_fit_raises (sgp_world 100) 0 Xq).
  eexists. split; reflexivity.
Defined.

(** [SparseGPModel(kernel).predict(Xq)] does not raise [NotFittedError]. *)
Lemma predict_before_fit_not_NotFittedError :
  ¬ ∃ msg σ', SparseGPModel.predict 0 Xq (sgp_world 100) =
                (Raise (NotFittedError msg), σ').
Proof.
  intros (msg & σ' & Hp).
  assert (He : (SparseGPModel.predict 0 Xq (sgp_world 100)).1 =
               Raise (AttributeError
                 "'SparseGPModel' object has no attribute 'model_'"))
    by reflexivity.
  rewrite Hp in He. simpl in He. discriminate He.
Qed.

(** The number of inducing inputs of the model an instance holds. *)
Definition held_inducing (σ : World) (self : loc) : option nat :=
  match heap σ !! self with
  | Some (ObjSGP o) =>
      match model_ o with
      | Some m => Some (nrows (inducing (m : recorded)))
      | None => None
      end
  | _ => None
  end.

(** [fit] goes through with M = 5 > N = 3, on all three rows; with M = 0
    the selection is empty and raises nothing either; and
    [RFF(n_components=0)] is constructed.  Nothing raises
    InvalidHyperparameter. *)
Lemma fit_accepts_any_M :
  let big := SparseGPModel.fit 0 X3 y3 (sgp_world 5) in
  big.1 = Ok () ∧ held_inducing big.2 0 = Some 3 ∧
  take_rows X3 (slice_to 0 (permutation 3 (np_random (sgp_world 0))).1) =
    Ok {| ncols := 2; rows := [] |} ∧
  (RFF.__init__ [] [("n_components", PyInt 0)] (world0 42)).1 = Ok 0.
Proof. repeat split. Qed.

Definition sgp5 : SparseGPModel_obj :=
  {| kernel_ := tt; num_inducing := 5; model_ := None |}.

Lemma no_check_of_M_witness :
  ∃ Z,
    take_rows X3 (slice_to 5 (permutation 3 (np_random (sgp_world 5))).1) =
      Ok Z ∧
    SparseGPModel.fit 0 X3 y3 (sgp_world 5) =
      fit_on 0 sgp5 X3 y3 Z (permutation 3 (np_random (sgp_world 5))).2
        (sgp_world 5) ∧
    (5%Z = 0%Z → nrows Z = 0) ∧
    ((Z.of_nat 3 ≤ 5)%Z → nrows Z = 3) ∧
    (∀ e σ', SparseGPModel.fit 0 X3 y3 (sgp_world 5) = (Raise e, σ') →
       SparseGPRegression X3 y3 tt Z = Raise e ∨
       ∃ m, SparseGPRegression X3 y3 tt Z = Ok m ∧
            (optimize 100 (inducing_inputs_fix m)).1 = Some e).
Proof.
  apply (proj2 (proj2 no_check_of_M) (sgp_world 5) 0 sgp5 X3 y3).
  reflexivity.
Defined.

Definition sgp2 : SparseGPModel_obj :=
  {| kernel_ := tt; num_inducing := 2; model_ := None |}.

Lemma inducing_inputs_drawn_without_replacement_witness :
  let N := 3 in
  let M := 2%Z in
  let idx := (permutation N (np_random (sgp_world 2))).1 in
  ∃ Z,
    take_rows X3 (slice_to M idx) = Ok Z ∧
    SparseGPModel.fit 0 X3 y3 (sgp_world 2) =
      fit_on 0 sgp2 X3 y3 Z (permutation N (np_random (sgp_world 2))).2
        (sgp_world 2) ∧
    NoDup (slice_to M idx) ∧
    Forall2 (λ i r, i < N ∧ rows X3 !! i = Some r) (slice_to M idx) (rows Z) ∧
    (∀ r, r ∈ rows Z → r ∈ rows X3) ∧
    ((0 ≤ M ≤ Z.of_nat N)%Z →
       nrows Z = Z.to_nat M ∧
       (∀ p, p ∈ shuffles N ↔ p ≡ₚ seq 0 N) ∧
       NoDup (shuffles N) ∧
       ∀ sel, NoDup sel → length sel = Z.to_nat M → (∀ i, i ∈ sel → i < N) →
         length (filter (λ p, slice_to M p = sel) (shuffles N)) =
           fact (N - Z.to_nat M)).
Proof.
  apply (inducing_inputs_drawn_without_replacement (sgp_world 2) 0 sgp2 X3 y3).
  reflexivity.
Defined.

(** Two models that differ in their inducing inputs, each held by an
    instance in a world of its own. *)
Definition model_with (Z : ndarray) : recorded :=
  {| train_X := X3; train_y := y3; inducing := Z; inducing_fixed := true;
     max_iters := Some 100%Z |}.

Definition model_A : recorded :=
  model_with {| ncols := 2; rows := [[num 1; num 2]] |}.

Definition model_B : recorded :=
  model_with {| ncols := 2; rows := [[num 1; num 2]; [num 3; num 4]] |}.

Definition sgp_holding (m : recorded) : SparseGPModel_obj :=
  {| kernel_ := tt; num_inducing := 2; model_ := Some m |}.

Definition holding (m : recorded) : World :=
  {| np_random := 0; heap := {[ 0 := ObjSGP (sgp_holding m) ]} |}.

Lemma predict_returns_mean_only_witness :
  SparseGPModel.predict 0 Xq (holding model_A) =
    (match model_predict model_A Xq with
     | Ok (mean, variance) => Ok mean
     | Raise e => Raise e
     end, holding model_A).
Proof.
  apply (predict_returns_mean_only (holding model_A) 0 (sgp_holding model_A)
           model_A Xq); reflexivity.
Defined.

(** What [predict] returns is the mean, one array; the variance is not in
    it: two models with the same mean and different variances give the same
    result. *)
Lemma predict_result_has_no_variance :
  ∃ mean var_A var_B,
    model_predict model_A Xq = Ok (mean, var_A) ∧
    model_predict model_B Xq = Ok (mean, var_B) ∧
    var_A ≠ var_B ∧
    (SparseGPModel.predict 0 Xq (holding model_A)).1 = Ok mean ∧
    (SparseGPModel.predict 0 Xq (holding model_B)).1 = Ok mean.
Proof.
  eexists _, _, _. split_and!; try reflexivity.
  intros [= Heq]. apply Reals.RIneq.eq_IZR in Heq. discriminate Heq.
Qed.

End Examples.

(** * Further properties of [SparseGPModel] *)
Section SparseGPModelMore.
Context `{Scalar} `{!NumpyRandom} `{!GPyLib}.

(** The number of elements of [l[:m]], for every integer [m]. *)
Lemma length_slice_to {A} (m : Z) (l : list A) :
  length (slice_to m l) =
    if (0 <=? m)%Z then Z.to_nat m `min` length l
    else length l - Z.to_nat (- m).
Proof.
  unfold slice_to. destruct (0 <=? m)%Z; rewrite length_take; lia.
Qed.

(** X2.  [score(X, y)] is [r2_score(y, prediction)] for the mean that
    [predict(X)] returns, the targets first: on an instance without
    [model_] it raises the [AttributeError] of [predict], it raises what
    GPy's [predict] or [r2_score] raise, and it changes nothing. *)
Theorem score_is_r2_of_mean (σ : World) (self : loc)
    (o : SparseGPModel_obj) (X y : ndarray) :
  heap σ !! self = Some (ObjSGP o) →
  SparseGPModel.score self X y σ =
    (match model_ o with
     | None =>
         Raise (AttributeError
           "'SparseGPModel' object has no attribute 'model_'")
     | Some m =>
         match model_predict m X with
         | Ok (mean, variance) => r2_score y mean
         | Raise e => Raise e
         end
     end, σ).
Proof.
  intros Ho.
  unfold SparseGPModel.score, SparseGPModel.predict,
    SparseGPModel.get_model_, bind.
  rewrite (sgp_get_lookup σ self o Ho).
  destruct (model_ o) as [m|]; [|done].
  unfold ret, lift.
  destruct (model_predict m X) as [[mean variance]|e]; reflexivity.
Qed.

(** X5.  A [fit] that raises leaves the instance in one of two states.
    When GPy's constructor raised, no object has changed: an instance that
    was fitted before still holds its old model.  When the optimizer
    raised, [model_] is already assigned: the instance holds the new model
    as the optimizer left it, and [predict] answers from it. *)
Theorem sgp_failed_fit (σ σ' : World) (self : loc) (o : SparseGPModel_obj)
    (X y : ndarray) (e : exn) :
  heap σ !! self = Some (ObjSGP o) →
  SparseGPModel.fit self X y σ = (Raise e, σ') →
  ∃ Z, take_rows X (slice_to (num_inducing o)
                      (permutation (nrows X) (np_random σ)).1) = Ok Z ∧
    ((SparseGPRegression X y (kernel_ o) Z = Raise e ∧ heap σ' = heap σ) ∨
     (∃ m, SparseGPRegression X y (kernel_ o) Z = Ok m ∧
           (optimize 100 (inducing_inputs_fix m)).1 = Some e ∧
           ∀ Xq, SparseGPModel.predict self Xq σ' =
             (match model_predict
                      (optimize 100 (inducing_inputs_fix m)).2 Xq with
              | Ok (mean, variance) => Ok mean
              | Raise e' => Raise e'
              end, σ'))).
Proof.
  intros Ho Hfit.
  pose proof (permutation_Permutation (nrows X) (np_random σ)) as Hperm.
  rewrite (sgp_fit_lookup σ self o X y Ho) in Hfit.
  destruct (permutation (nrows X) (np_random σ)) as [idx s']. simpl in *.
  destruct (take_rows_Ok X (slice_to (num_inducing o) idx)) as (Z & HZ & _).
  { intros i Hi. eapply elem_of_prefix in Hi; [|apply slice_to_sublist].
    rewrite Hperm in Hi. apply elem_of_seq in Hi. lia. }
  rewrite HZ in Hfit. exists Z. split; [done|].
  unfold fit_on in Hfit.
  destruct (SparseGPRegression X y (kernel_ o) Z) as [m|e0].
  - right. exists m. split; [done|].
    destruct (optimize 100 (inducing_inputs_fix m)) as [[e0|] m'];
      [|done].
    injection Hfit as -> <-. split; [done|]. intros Xq. simpl.
    unfold SparseGPModel.predict, bind.
    erewrite get_model__lookup;
      [|simpl; apply lookup_insert_eq|reflexivity].
    unfold lift, ret.
    destruct (model_predict m' Xq) as [[mean variance]|e']; reflexivity.
  - left. by injection Hfit as -> <-.
Qed.

(** X6.  After a [fit] that returns, [predict] does not raise for want of
    a model: it returns the mean GPy predicts with the model built from
    [X], [y], the kernel and the drawn inducing inputs, whose inducing
    inputs were fixed before it was optimized with [max_iters=100]. *)
Theorem sgp_fit_then_predict (σ σ' : World) (self : loc)
    (o : SparseGPModel_obj) (X y : ndarray) :
  heap σ !! self = Some (ObjSGP o) →
  SparseGPModel.fit self X y σ = (Ok (), σ') →
  ∃ Z m,
    take_rows X (slice_to (num_inducing o)
                   (permutation (nrows X) (np_random σ)).1) = Ok Z ∧
    SparseGPRegression X y (kernel_ o) Z = Ok m ∧
    (optimize 100 (inducing_inputs_fix m)).1 = None ∧
    ∀ Xq, SparseGPModel.predict self Xq σ' =
      (match model_predict (optimize 100 (inducing_inputs_fix m)).2 Xq with
       | Ok (mean, variance) => Ok mean
       | Raise e => Raise e
       end, σ').
Proof.
  intros Ho Hfit.
  rewrite (sgp_fit_lookup σ self o X y Ho) in Hfit.
  destruct (permutation (nrows X) (np_random σ)) as [idx s']. simpl in *.
  destruct (take_rows X (slice_to (num_inducing o) idx)) as [Z|e]; [|done].
  unfold fit_on in Hfit.
  destruct (SparseGPRegression X y (kernel_ o) Z) as [m|e] eqn:Hm; [|done].
  exists Z, m. split; [done|]. split; [done|].
  destruct (optimize 100 (inducing_inputs_fix m)) as [[e|] m']; [done|].
  injection Hfit as <-. split; [done|]. intros Xq. simpl.
  unfold SparseGPModel.predict, bind.
  erewrite get_model__lookup; [|simpl; apply lookup_insert_eq|reflexivity].
  unfold lift, ret.
  destruct (model_predict m' Xq) as [[mean variance]|e']; reflexivity.
Qed.

(** X7.  The number of inducing inputs [fit] hands to GPy, for every
    integer [num_inducing] = M and N rows: min(M, N) when M >= 0, and
    N - |M| (none when |M| >= N) when M is negative, the slice [idx[:M]]
    then dropping the last |M| indices.  It never exceeds N. *)
Theorem sgp_inducing_count (σ : World) (self : loc) (o : SparseGPModel_obj)
    (X y : ndarray) :
  heap σ !! self = Some (ObjSGP o) →
  ∃ Z,
    SparseGPModel.fit self X y σ =
      fit_on self o X y Z (permutation (nrows X) (np_random σ)).2 σ ∧
    ncols Z = ncols X ∧
    nrows Z = (if (0 <=? num_inducing o)%Z
               then Z.to_nat (num_inducing o) `min` nrows X
               else nrows X - Z.to_nat (- num_inducing o)) ∧
    nrows Z ≤ nrows X.
Proof.
  intros Ho.
  pose proof (permutation_Permutation (nrows X) (np_random σ)) as Hperm.
  rewrite (sgp_fit_lookup σ self o X y Ho).
  destruct (permutation (nrows X) (np_random σ)) as [idx s']. simpl in *.
  destruct (take_rows_Ok X (slice_to (num_inducing o) idx))
    as (Z & HZ & Hc & Hrows).
  { intros i Hi. eapply elem_of_prefix in Hi; [|apply slice_to_sublist].
    rewrite Hperm in Hi. apply elem_of_seq in Hi. lia. }
  assert (Hlen : length idx = nrows X) by (by rewrite Hperm, length_seq).
  apply Forall2_length in Hrows.
  exists Z. rewrite HZ. split; [done|]. split; [done|].
  rewrite length_slice_to, Hlen in Hrows. unfold nrows in *.
  destruct (0 <=? num_inducing o)%Z; lia.
Qed.

End SparseGPModelMore.

(** * Further properties of [RFF], whatever fills the blanks *)
Section RFFMore.
Context `{Scalar} `{!NumpyRandom} `{!GPyLib} `{!RFF.Blanks}.

(** ** The constructor *)

Lemma bind_keywords_TypeError (ps : list param)
    (kwargs : list (string * pyval)) (bound : gmap string pyval) (e : exn) :
  bind_keywords ps kwargs bound = Raise e → exc_class e = "TypeError".
Proof.
  revert bound. induction kwargs as [|[k v] kwargs IH]; intros bound; simpl.
  - done.
  - destruct (decide (is_Some (bound !! k))); [by intros [= <-]|].
    destruct (decide (k ∈ ps.*1)); [apply IH|by intros [= <-]].
Qed.

Lemma bind_defaults_TypeError (ps : list param) (bound : gmap string pyval)
    (e : exn) :
  bind_defaults ps bound = Raise e → exc_class e = "TypeError".
Proof.
  revert bound. induction ps as [|[n d] ps IH]; intros bound; simpl.
  - done.
  - destruct (bound !! n); [apply IH|].
    destruct d; [apply IH|by intros [= <-]].
Qed.

Lemma bind_args_TypeError (ps : list param) (args : list pyval)
    (kwargs : list (string * pyval)) (e : exn) :
  bind_args ps args kwargs = Raise e → exc_class e = "TypeError".
Proof.
  unfold bind_args.
  destruct (bind_positional ps args ∅) as [[ps' bound]|e0] eqn:Hp.
  - destruct (bind_keywords ps kwargs bound) as [bound'|e0] eqn:Hk.
    + apply bind_defaults_TypeError.
    + intros [= <-]. by eapply bind_keywords_TypeError.
  - intros [= <-]. by eapply bind_positional_TypeError.
Qed.

(** Keywords that name parameters, each once, none bound yet, are all
    accepted. *)
Lemma bind_keywords_Ok (ps : list param) (kwargs : list (string * pyval))
    (bound : gmap string pyval) :
  NoDup kwargs.*1 →
  (∀ k, k ∈ kwargs.*1 → k ∈ ps.*1) →
  (∀ k, k ∈ kwargs.*1 → bound !! k = None) →
  bind_keywords ps kwargs bound = Ok (list_to_map kwargs ∪ bound).
Proof.
  revert bound. induction kwargs as [|[k v] kwargs IH];
    intros bound Hnd Hps Hfree.
  - simpl. by rewrite (left_id_L ∅ (∪)).
  - rewrite fmap_cons in Hnd. apply NoDup_cons in Hnd as [Hk Hnd].
    simpl in Hk. cbn [bind_keywords].
    rewrite decide_False; last first.
    { rewrite (Hfree k) by left. by intros [? ?]. }
    rewrite decide_True by (apply Hps; left).
    rewrite IH; [|done| |].
    + f_equal. rewrite list_to_map_cons, <- insert_union_l.
      symmetry. apply insert_union_r.
      by apply not_elem_of_list_to_map_1.
    + intros k' Hk'. apply Hps. by right.
    + intros k' Hk'. rewrite lookup_insert_ne.
      * apply Hfree. by right.
      * intros ->. done.
Qed.

(** X8.  [RFF(...)] called with keywords stores what it is given as it is
    given: each of [gamma], [n_components] and [kernel] holds the value
    passed for it, of whatever type, and the default (1, 50, "rbf") when
    none is passed.  Nothing is converted or checked. *)
Theorem init_stores_arguments (σ : World) (kwargs : list (string * pyval)) :
  NoDup kwargs.*1 →
  (∀ k, k ∈ kwargs.*1 → k ∈ ["gamma"; "n_components"; "kernel"]) →
  ∃ self σ' o,
    RFF.__init__ [] kwargs σ = (Ok self, σ') ∧
    heap σ' !! self = Some (ObjRFF o) ∧
    (∀ v, ("gamma", v) ∈ kwargs → gamma o = v) ∧
    ("gamma" ∉ kwargs.*1 → gamma o = PyInt 1) ∧
    (∀ v, ("n_components", v) ∈ kwargs → n_components o = v) ∧
    ("n_components" ∉ kwargs.*1 → n_components o = PyInt 50) ∧
    (∀ v, ("kernel", v) ∈ kwargs → kernel o = v) ∧
    ("kernel" ∉ kwargs.*1 → kernel o = PyStr "rbf").
Proof.
  intros Hnd Hps.
  unfold RFF.__init__, bind, lift, bind_args. simpl bind_positional.
  cbv beta iota.
  rewrite (bind_keywords_Ok RFF.params kwargs ∅ Hnd Hps)
    by (intros; apply lookup_empty).
  rewrite (right_id_L ∅ (∪)).
  set (b := list_to_map kwargs : gmap string pyval).
  assert (Hin : ∀ k v, (k, v) ∈ kwargs → b !! k = Some v).
  { intros k v Hkv. by apply elem_of_list_to_map_1. }
  assert (Hout : ∀ k, k ∉ kwargs.*1 → b !! k = None).
  { intros k Hk. by apply not_elem_of_list_to_map_1. }
  clearbody b.
  assert (Hd : ∃ b', bind_defaults RFF.params b = Ok b' ∧
            b' !! "gamma" = Some (default (PyInt 1) (b !! "gamma")) ∧
            b' !! "n_components" =
              Some (default (PyInt 50) (b !! "n_components")) ∧
            b' !! "kernel" = Some (default (PyStr "rbf") (b !! "kernel"))).
  { unfold RFF.params. simpl.
    destruct (b !! "gamma") as [g|] eqn:Hg;
      destruct (b !! "n_components") as [n|] eqn:Hn;
      destruct (b !! "kernel") as [k|] eqn:Hk; simpl;
      rewrite ?lookup_insert_ne, ?Hn, ?Hk by done; simpl;
      rewrite ?lookup_insert_ne, ?Hk by done; simpl;
      eexists; (split; [reflexivity|]);
      repeat first [rewrite lookup_insert_eq
                   |rewrite lookup_insert_ne by done];
      rewrite ?Hg, ?Hn, ?Hk; done. }
  destruct Hd as (b' & -> & Hg & Hn & Hk).
  unfold alloc. eexists _, _, _. split; [reflexivity|]. simpl.
  split; [apply lookup_insert_eq|]. unfold arg. rewrite Hg, Hn, Hk. simpl.
  split_and!.
  - intros v Hv. by rewrite (Hin _ _ Hv).
  - intros Hv. by rewrite (Hout _ Hv).
  - intros v Hv. by rewrite (Hin _ _ Hv).
  - intros Hv. by rewrite (Hout _ Hv).
  - intros v Hv. by rewrite (Hin _ _ Hv).
  - intros Hv. by rewrite (Hout _ Hv).
Qed.

(** X9.  A call [RFF(...)] that fails fails with a [TypeError], and
    creates nothing: no object is allocated and the random state is not
    touched. *)
Theorem init_raises_only_TypeError (σ σ' : World) (args : list pyval)
    (kwargs : list (string * pyval)) (e : exn) :
  RFF.__init__ args kwargs σ = (Raise e, σ') →
  exc_class e = "TypeError" ∧ σ' = σ.
Proof.
  unfold RFF.__init__, bind, lift.
  destruct (bind_args RFF.params args kwargs) as [b|e0] eqn:Hb.
  - unfold alloc. done.
  - intros [= <- <-]. split; [|done]. by eapply bind_args_TypeError.
Qed.

(** X13.  Positional arguments are bound in the order [gamma],
    [n_components], [kernel]: a call with up to three of them does what the
    call with the same values passed by keyword does. *)
Theorem init_positional_as_keywords (σ : World) (args : list pyval) :
  length args ≤ 3 →
  RFF.__init__ args [] σ =
  RFF.__init__ [] (zip ["gamma"; "n_components"; "kernel"] args) σ.
Proof.
  intros Hlen.
  destruct args as [|g [|n [|k [|x args]]]]; simpl in Hlen; try lia;
    reflexivity.
Qed.

(** ** [fit] *)

Lemma bind_Ok_inv {A B} (c : Py A) (k : A → Py B) (σ σ' : World) (b : B) :
  bind c k σ = (Ok b, σ') →
  ∃ a σ1, c σ = (Ok a, σ1) ∧ k a σ1 = (Ok b, σ').
Proof.
  unfold bind. destruct (c σ) as [[a|e] σ1]; [|done]. by exists a, σ1.
Qed.

Lemma store_after_get_inv (f : RFF_obj → RFF_obj) (self : loc)
    (σ σ' : World) :
  (let* o := RFF.get self in store self (ObjRFF (f o))) σ = (Ok (), σ') →
  ∃ o, heap σ !! self = Some (ObjRFF o) ∧
       σ' = {| np_random := np_random σ;
               heap := <[self := ObjRFF (f o)]> (heap σ) |}.
Proof.
  intros Hs. apply bind_Ok_inv in Hs as (o & σ1 & Hg & Hs).
  apply get_Ok in Hg as [-> Ho]. exists o. split; [done|].
  unfold store in Hs. by injection Hs as <-.
Qed.

(** X10.  A [fit] that returns returns [self] and leaves the instance
    fitted, with [u] holding the value its blank evaluated to, whatever
    fills the blanks.  From then on the guard of [transform] passes:
    [transform(X')] is what the blank for [Z] evaluates to. *)
Theorem fit_Ok_fitted (σ σ' : World) (self r : loc) (X : ndarray) (y : pyval) :
  RFF.fit self X y σ = (Ok r, σ') →
  r = self ∧
  ∃ o' v σa σb,
    RFF.blank_u self X y (ncols X) σa = (Ok v, σb) ∧
    heap σ' !! self = Some (ObjRFF o') ∧
    fitted o' = true ∧ u o' = Some v ∧
    ∀ X', RFF.transform self X' σ' = RFF.blank_Z self X' σ'.
Proof.
  intros Hfit. unfold RFF.fit in Hfit.
  apply bind_Ok_inv in Hfit as (o & σ1 & _ & Hfit).
  apply bind_Ok_inv in Hfit as ([] & σ2 & _ & Hfit).
  apply bind_Ok_inv in Hfit as (v & σ3 & Hu & Hfit).
  apply bind_Ok_inv in Hfit as ([] & σ4 & Hsu & Hfit).
  apply bind_Ok_inv in Hfit as ([] & σ5 & Hsf & Hfit).
  unfold ret in Hfit. injection Hfit as <- <-.
  apply (store_after_get_inv (λ o, RFF.with_u o v)) in Hsu as (o3 & Ho3 & ->).
  apply (store_after_get_inv (λ o, RFF.with_fitted o true)) in Hsf
    as (o4 & Ho4 & ->).
  simpl in Ho4. rewrite lookup_insert_eq in Ho4. injection Ho4 as <-.
  split; [done|].
  eexists _, v, σ2, σ3. split; [exact Hu|].
  split; [simpl; apply lookup_insert_eq|].
  split; [done|]. split; [done|].
  intros X'. unfold RFF.transform, bind.
  erewrite get_lookup by (simpl; apply lookup_insert_eq). simpl.
  unfold ret.
  by destruct (RFF.blank_Z self X' _) as [[Z|e] σz].
Qed.

(** X1.  [fit] has no [else] branch, and marks the instance fitted all
    the same: when [kernel] is neither "rbf" nor "laplace" and the
    expression assigned to [self.u] leaves the instance as it is, a [fit]
    that returns has left [self.w] as it was - a fresh instance still has
    none - and has set [fitted].  The guard of [transform] then lets the
    call through to the computation of [Z], with no [w] to compute it
    from.  This holds whatever fills the blanks. *)
Theorem fit_other_kernel_fitted_without_w (σ σ' : World) (self r : loc)
    (o : RFF_obj) (X : ndarray) (y : pyval) :
  heap σ !! self = Some (ObjRFF o) →
  is_str (kernel o) "rbf" = false → is_str (kernel o) "laplace" = false →
  heap (RFF.blank_u self X y (ncols X) σ).2 !! self = heap σ !! self →
  RFF.fit self X y σ = (Ok r, σ') →
  ∃ o', heap σ' !! self = Some (ObjRFF o') ∧
        w o' = w o ∧ fitted o' = true ∧
        ∀ X', RFF.transform self X' σ' = RFF.blank_Z self X' σ'.
Proof.
  intros Ho Hrbf Hlap Hu Hfit.
  rewrite (fit_other_kernel_skips_w σ self o X y Ho Hrbf Hlap) in Hfit.
  apply bind_Ok_inv in Hfit as (v & σ3 & Hv & Hfit).
  rewrite Hv in Hu. simpl in Hu.
  apply bind_Ok_inv in Hfit as ([] & σ4 & Hsu & Hfit).
  apply bind_Ok_inv in Hfit as ([] & σ5 & Hsf & Hfit).
  unfold ret in Hfit. injection Hfit as <- <-.
  apply (store_after_get_inv (λ o, RFF.with_u o v)) in Hsu as (o3 & Ho3 & ->).
  apply (store_after_get_inv (λ o, RFF.with_fitted o true)) in Hsf
    as (o4 & Ho4 & ->).
  simpl in Ho4. rewrite lookup_insert_eq in Ho4. injection Ho4 as <-.
  rewrite Hu, Ho in Ho3. injection Ho3 as <-.
  eexists. split; [simpl; apply lookup_insert_eq|].
  split; [done|]. split; [done|].
  intros X'. unfold RFF.transform, bind.
  erewrite get_lookup by (simpl; apply lookup_insert_eq). simpl.
  unfold ret.
  by destruct (RFF.blank_Z self X' _) as [[Z|e] σz].
Qed.

(** ** [compute_kernel] *)

Lemma inner_comm (a b : list F) :
  (∀ x y, Fmul x y = Fmul y x) → inner a b = inner b a.
Proof.
  intros Hmul. unfold inner. f_equal.
  revert b. induction a as [|x a IH]; intros [|z b]; simpl; try done.
  by rewrite Hmul, IH.
Qed.

(** X11.  What [compute_kernel] returns is a square matrix, with as many
    rows and columns as [transform(X)] has rows, and it is symmetric -
    provided the scalar product is commutative, as that of float64 is, and
    [transform(X)] is rectangular. *)
Theorem compute_kernel_square_symmetric (σ σ' : World) (self : loc)
    (X Φ : ndarray) :
  (∀ x y, Fmul x y = Fmul y x) → wf Φ →
  RFF.transform self X σ = (Ok Φ, σ') →
  ∃ K, RFF.compute_kernel self X σ = (Ok K, σ') ∧
       nrows K = nrows Φ ∧ ncols K = nrows Φ ∧ wf K ∧
       ∀ i k, item K i k = item K k i.
Proof.
  intros Hmul Hwf Ht.
  destruct (transform_Ok_fitted _ _ _ _ _ Ht) as (o & Ho & Hf & _).
  exists (matmul Φ (T Φ)). split_and!.
  - unfold RFF.compute_kernel, bind.
    rewrite (get_lookup σ self o Ho), Hf; simpl.
    rewrite Ht. unfold lift, ret. by rewrite dot_T.
  - unfold nrows, matmul; simpl. by rewrite length_map.
  - reflexivity.
  - unfold wf, matmul; simpl. apply Forall_forall. intros r Hr.
    apply list_elem_of_fmap in Hr as (r0 & -> & _).
    by rewrite length_map, length_seq.
  - assert (Hout : ∀ i k, rows Φ !! i = None →
              item (matmul Φ (T Φ)) i k = None ∧
              item (matmul Φ (T Φ)) k i = None).
    { intros i k Hi. unfold item, matmul; simpl. split.
      - by rewrite list_lookup_fmap, Hi.
      - rewrite list_lookup_fmap.
        destruct (rows Φ !! k) as [rk|]; [|done]. simpl.
        rewrite list_lookup_fmap. apply lookup_ge_None in Hi.
        rewrite lookup_seq_ge; [done|]. unfold nrows. lia. }
    intros i k.
    destruct (rows Φ !! i) as [ri|] eqn:Hi.
    + destruct (rows Φ !! k) as [rk|] eqn:Hk.
      * rewrite (item_matmul_T Φ i k ri rk), (item_matmul_T Φ k i rk ri)
          by done.
        f_equal. by apply inner_comm.
      * destruct (Hout k i Hk) as [Ha Hb]. by rewrite Ha, Hb.
    + destruct (Hout i k Hi) as [Ha Hb]. by rewrite Ha, Hb.
Qed.

(** X12.  When [transform(X)] raises, [compute_kernel(X)] raises too, an
    exception of the same class, and leaves the same world: the very same
    exception, except on an unfitted instance, where each method has a
    message of its own. *)
Theorem compute_kernel_raises_as_transform (σ σ' : World) (self : loc)
    (X : ndarray) (e : exn) :
  RFF.transform self X σ = (Raise e, σ') →
  ∃ e', RFF.compute_kernel self X σ = (Raise e', σ') ∧
        exc_class e' = exc_class e ∧ (e' = e ∨ unfitted σ self).
Proof.
  intros Ht. unfold RFF.compute_kernel, bind.
  destruct (RFF.get self σ) as [[o|e0] σ1] eqn:Hg.
  - apply get_Ok in Hg as [-> Ho].
    destruct (fitted o) eqn:Hf; simpl.
    + rewrite Ht. exists e. split_and!; [done|done|by left].
    + unfold RFF.transform, bind in Ht.
      rewrite (get_lookup σ self o Ho), Hf in Ht. simpl in Ht.
      unfold raise in *. injection Ht as <- <-.
      eexists. split_and!; [done|done|]. right. by exists o.
  - unfold RFF.transform, bind in Ht. rewrite Hg in Ht.
    injection Ht as <- <-. exists e0. split_and!; [done|done|by left].
Qed.

End RFFMore.

(** * The further properties, at concrete inputs *)
Module MoreExamples.
Import Sample Examples.
#[local] Existing Instance R_scalar.
#[local] Existing Instance counter_random.
#[local] Existing Instance paired_seeds.
#[local] Existing Instance RFFSpec.blanks.

Module Stalling.

(** A GPy whose optimizer gives up: it records the call and raises. *)
Definition stalling_gpy : GPyLib := {|
  Kern := unit;
  GPModel := recorded;
  SparseGPRegression := λ X y _ Z,
    Ok {| train_X := X; train_y := y; inducing := Z;
          inducing_fixed := false; max_iters := None |};
  inducing_inputs_fix := λ m,
    {| train_X := train_X m; train_y := train_y m; inducing := inducing m;
       inducing_fixed := true; max_iters := max_iters m |};
  optimize := λ n m,
    (Some (Exception "LinAlgError" "not positive definite"),
     {| train_X := train_X m; train_y := train_y m;
        inducing := inducing m; inducing_fixed := inducing_fixed m;
        max_iters := Some n |});
  model_predict := recorded_predict;
  r2_score := λ _ _, Ok zero |}.

#[local] Existing Instance stalling_gpy.

(** A fresh notebook on that GPy, in which
    [SparseGPModel(kernel, num_inducing=2)] has just been evaluated. *)
Definition stalling_world : World :=
  (SparseGPModel.__init__ tt (Some 2%Z) {| np_random := 0; heap := ∅ |}).2.

Definition stalling_sgp : SparseGPModel_obj :=
  {| kernel_ := tt; num_inducing := 2; model_ := None |}.

Lemma sgp_failed_fit_witness :
  ∃ Z, take_rows X3 (slice_to 2 (permutation 3 (np_random stalling_world)).1)
         = Ok Z ∧
    ((SparseGPRegression X3 y3 tt Z =
        Raise (Exception "LinAlgError" "not positive definite") ∧
      heap (SparseGPModel.fit 0 X3 y3 stalling_world).2 =
        heap stalling_world) ∨
     (∃ m, SparseGPRegression X3 y3 tt Z = Ok m ∧
           (optimize 100 (inducing_inputs_fix m)).1 =
             Some (Exception "LinAlgError" "not positive definite") ∧
           ∀ Xq, SparseGPModel.predict 0 Xq
                   (SparseGPModel.fit 0 X3 y3 stalling_world).2 =
             (match model_predict
                      (optimize 100 (inducing_inputs_fix m)).2 Xq with
              | Ok (mean, variance) => Ok mean
              | Raise e' => Raise e'
              end, (SparseGPModel.fit 0 X3 y3 stalling_world).2))).
Proof.
  apply (sgp_failed_fit stalling_world
           (SparseGPModel.fit 0 X3 y3 stalling_world).2 0 stalling_sgp X3 y3
           (Exception "LinAlgError" "not positive definite"));
    reflexivity.
Defined.

End Stalling.

#[local] Existing Instance recording_gpy.

Lemma score_is_r2_of_mean_witness :
  SparseGPModel.score 0 Xq y3 (holding model_A) =
    (match model_ (sgp_holding model_A) with
     | None =>
         Raise (AttributeError
           "'SparseGPModel' object has no attribute 'model_'")
     | Some m =>
         match model_predict m Xq with
         | Ok (mean, variance) => r2_score y3 mean
         | Raise e => Raise e
         end
     end, holding model_A).
Proof.
  apply (score_is_r2_of_mean (holding model_A) 0 (sgp_holding model_A) Xq y3).
  reflexivity.
Defined.

(** The world [fit] leaves in a notebook where
    [SparseGPModel(kernel, num_inducing=2)] was just evaluated. *)
Definition after_fit : World := (SparseGPModel.fit 0 X3 y3 (sgp_world 2)).2.

Lemma sgp_fit_then_predict_witness :
  ∃ Z m,
    take_rows X3 (slice_to (num_inducing sgp2)
                    (permutation (nrows X3) (np_random (sgp_world 2))).1)
      = Ok Z ∧
    SparseGPRegression X3 y3 (kernel_ sgp2) Z = Ok m ∧
    (optimize 100 (inducing_inputs_fix m)).1 = None ∧
    ∀ Xq, SparseGPModel.predict 0 Xq after_fit =
      (match model_predict (optimize 100 (inducing_inputs_fix m)).2 Xq with
       | Ok (mean, variance) => Ok mean
       | Raise e => Raise e
       end, after_fit).
Proof.
  apply (sgp_fit_then_predict (sgp_world 2) after_fit 0 sgp2 X3 y3);
    reflexivity.
Defined.

(** [num_inducing = -1] on three rows: two inducing inputs. *)
Definition sgp_minus1 : SparseGPModel_obj :=
  {| kernel_ := tt; num_inducing := -1; model_ := None |}.

Lemma sgp_inducing_count_witness :
  ∃ Z,
    SparseGPModel.fit 0 X3 y3 (sgp_world (-1)) =
      fit_on 0 sgp_minus1 X3 y3 Z
        (permutation (nrows X3) (np_random (sgp_world (-1)))).2
        (sgp_world (-1)) ∧
    ncols Z = ncols X3 ∧
    nrows Z = (if (0 <=? num_inducing sgp_minus1)%Z
               then Z.to_nat (num_inducing sgp_minus1) `min` nrows X3
               else nrows X3 - Z.to_nat (- num_inducing sgp_minus1)) ∧
    nrows Z ≤ nrows X3.
Proof.
  apply (sgp_inducing_count (sgp_world (-1)) 0 sgp_minus1 X3 y3).
  reflexivity.
Defined.

(** [RFF(kernel="laplace", n_components="many")]: the string is stored. *)
Definition odd_kwargs : list (string * pyval) :=
  [("kernel", PyStr "laplace"); ("n_components", PyStr "many")].

Lemma init_stores_arguments_witness :
  ∃ self σ' o,
    RFF.__init__ [] odd_kwargs (world0 42) = (Ok self, σ') ∧
    heap σ' !! self = Some (ObjRFF o) ∧
    (∀ v, ("gamma", v) ∈ odd_kwargs → gamma o = v) ∧
    ("gamma" ∉ odd_kwargs.*1 → gamma o = PyInt 1) ∧
    (∀ v, ("n_components", v) ∈ odd_kwargs → n_components o = v) ∧
    ("n_components" ∉ odd_kwargs.*1 → n_components o = PyInt 50) ∧
    (∀ v, ("kernel", v) ∈ odd_kwargs → kernel o = v) ∧
    ("kernel" ∉ odd_kwargs.*1 → kernel o = PyStr "rbf").
Proof.
  apply (init_stores_arguments (world0 42) odd_kwargs).
  - simpl. apply NoDup_cons. split; [|apply NoDup_singleton].
    by intros [=]%list_elem_of_singleton.
  - intros k Hk. simpl in Hk. apply elem_of_cons in Hk as [->|Hk].
    + do 2 right. left.
    + apply list_elem_of_singleton in Hk as ->. right. left.
Defined.

Lemma init_raises_only_TypeError_witness :
  exc_class (TypeError "too many positional arguments") = "TypeError" ∧
  world0 42 = world0 42.
Proof.
  apply (init_raises_only_TypeError (world0 42) (world0 42)
           [PyInt 1; PyInt 50; PyStr "rbf"; PyInt 42] []
           (TypeError "too many positional arguments")).
  reflexivity.
Defined.

Lemma init_positional_as_keywords_witness :
  RFF.__init__ [PyInt 2; PyInt 10] [] (world0 42) =
  RFF.__init__ []
    (zip ["gamma"; "n_components"; "kernel"] [PyInt 2; PyInt 10]) (world0 42).
Proof.
  apply (init_positional_as_keywords (world0 42) [PyInt 2; PyInt 10]).
  simpl. lia.
Defined.

Lemma init_unfitted_witness :
  heap (world0 42) !! 0 = None ∧ unfitted unfitted_world 0 ∧
  ∃ b, bind_args RFF.params [] [] = Ok b ∧
       heap unfitted_world =
         <[0 := ObjRFF {| gamma := arg b "gamma"; kernel := arg b "kernel";
                          n_components := arg b "n_components";
                          fitted := false; w := None; u := None |}]>
           (heap (world0 42)) ∧
       np_random unfitted_world = np_random (world0 42).
Proof.
  apply (init_unfitted [] [] (world0 42) unfitted_world 0). reflexivity.
Defined.

(** The world [fit] leaves in the notebook of [RFF(kernel="linear")]. *)
Definition linear_after_fit : World :=
  (RFFSpec.fit 0 X3 PyNone linear_world).2.

Lemma fit_other_kernel_fitted_without_w_witness :
  ∃ o', heap linear_after_fit !! 0 = Some (ObjRFF o') ∧
        w o' = w linear_rff ∧ fitted o' = true ∧
        ∀ X', RFF.transform 0 X' linear_after_fit =
              RFF.blank_Z 0 X' linear_after_fit.
Proof.
  apply (fit_other_kernel_fitted_without_w linear_world linear_after_fit 0 0
           linear_rff X3 PyNone); reflexivity.
Defined.

(** The world [fit] leaves on the instance of [unfitted_world]. *)
Definition rff_after_fit : World :=
  (RFFSpec.fit 0 X3 PyNone unfitted_world).2.

Lemma fit_Ok_fitted_witness :
  0 = 0 ∧
  ∃ o' v σa σb,
    RFF.blank_u 0 X3 PyNone (ncols X3) σa = (Ok v, σb) ∧
    heap rff_after_fit !! 0 = Some (ObjRFF o') ∧
    fitted o' = true ∧ u o' = Some v ∧
    ∀ X', RFF.transform 0 X' rff_after_fit = RFF.blank_Z 0 X' rff_after_fit.
Proof.
  apply (fit_Ok_fitted unfitted_world rff_after_fit 0 0 X3 PyNone).
  reflexivity.
Defined.

Lemma wf_Phi_q : wf Φq.
Proof. repeat constructor. Qed.

Lemma compute_kernel_square_symmetric_witness :
  ∃ K, RFF.compute_kernel 0 Xq fitted_world = (Ok K, fitted_world) ∧
       nrows K = nrows Φq ∧ ncols K = nrows Φq ∧ wf K ∧
       ∀ i k, item K i k = item K k i.
Proof.
  apply (compute_kernel_square_symmetric fitted_world fitted_world 0 Xq Φq).
  - exact Reals.Raxioms.Rmult_comm.
  - exact wf_Phi_q.
  - reflexivity.
Defined.

(** A query with three columns, on a mapper fitted in dimension two. *)
Definition X_wide : ndarray :=
  {| ncols := 3; rows := [[num 1; num 2; num 3]] |}.

Lemma compute_kernel_raises_as_transform_witness :
  ∃ e', RFF.compute_kernel 0 X_wide fitted_world = (Raise e', fitted_world) ∧
        exc_class e' =
          exc_class (RFFSpec.DimensionMismatch
                       "X does not have the fitted dimensionality") ∧
        (e' = RFFSpec.DimensionMismatch
                "X does not have the fitted dimensionality" ∨
         unfitted fitted_world 0).
Proof.
  apply (compute_kernel_raises_as_transform fitted_world fitted_world 0 X_wide
           (RFFSpec.DimensionMismatch
              "X does not have the fitted dimensionality")).
  reflexivity.
Defined.

End MoreExamples.
